(** * SGDSlicedWasserstein: the sliced Wasserstein loss and the loss plot

    A shallow embedding of [loss.py] ([sw_loss], [SWDLoss]) and of
    [plot_loss] from [plot.py].

    Conventions of the model.
    - A tensor entry is a real number: a finite float is a rational, and the
      arithmetic of the embedding is exact.  Rounding, overflow and the
      propagation of inf/nan entries are not modelled: a statement about a
      value returned holds of batches with finite entries whose computation
      does not overflow.  The one nan that depends on the shapes alone, the
      mean of a tensor without entries, is modelled ([NaN]).
    - A tensor is a Python object: it lives in a store and is passed by
      reference.  Every torch operation the code calls is out of place and
      allocates its result.
    - The random source is the stream of the samples [torch.randn] will draw
      next; every statement is about one call and quantifies over the
      stream, so that the entries of the matrix drawn are arbitrary reals.
      Which samples of its generator torch hands out, and where it leaves the
      generator, is not modelled. *)

From Stdlib Require Import Reals Lra Lia List ZArith Permutation Sorted String Ascii.
From stdpp Require Import gmap strings.
Import ListNotations.

Local Open Scope R_scope.

(* ================================================================= *)
(** ** Tensors of rank 2 *)

(** A (nrows, ncols) tensor with its entries row by row.  The shape is kept
    apart from the entries, as torch does: a (0, d) and a (n, 0) tensor have
    no entries and different shapes. *)
Record Tensor : Type := mkTensor {
  nrows : nat;
  ncols : nat;
  rows : list (list R)
}.

Definition get (t : Tensor) (i j : nat) : R := nth j (nth i (rows t) []) 0.

Definition tabulate (n m : nat) (f : nat -> nat -> R) : Tensor :=
  mkTensor n m (map (fun i => map (fun j => f i j) (seq 0 m)) (seq 0 n)).

(** [t[:, j]] *)
Definition column (t : Tensor) (j : nat) : list R :=
  map (fun i => get t i j) (seq 0 (nrows t)).

Definition numel (t : Tensor) : nat := (nrows t * ncols t)%nat.

(** The entries agree with the shape. *)
Definition has_shape (t : Tensor) (n d : nat) : Prop :=
  nrows t = n /\ ncols t = d /\
  length (rows t) = n /\ Forall (fun r => length r = d) (rows t).

Definition sum_list (l : list R) : R := fold_right Rplus 0 l.

(** The value of a 0-dimensional float tensor. *)
Inductive Scalar : Type :=
  | Fin (x : R)
  | NaN.

(** What the torch calls of [sw_loss] can raise (all are [RuntimeError]s in
    torch; [InvalidReference] cannot happen in Python and makes the store
    lookup total). *)
Inductive exn : Type :=
  | NegativeDimension (k : Z)
  | MatmulShapeMismatch (mat1 mat2 : nat * nat)
  | BroadcastMismatch (a b : nat * nat)
  | InvalidReference.

(* ================================================================= *)
(** ** The torch operations on values *)

(** The stream of standard normal samples still to be drawn. *)
Definition Generator : Type := nat -> R.

(** [torch.randn(d, p)]: fills a (d, p) tensor row by row from the stream. *)
Definition randn_values (d p : nat) (g : Generator) : Tensor :=
  tabulate d p (fun i j => g (i * p + j)%nat).

Definition advance (n : nat) (g : Generator) : Generator :=
  fun k => g (n + k)%nat.

(** [eps] of [F.normalize], default [1e-12]. *)
Definition eps : R := 1e-12.

(** [torch.linalg.vector_norm(v, 2)] *)
Definition norm2 (v : list R) : R := sqrt (sum_list (map (fun x => x * x) v)).

(** The divisor of column [j]: [norm.clamp_min(eps)]. *)
Definition denom (t : Tensor) (j : nat) : R := Rmax (norm2 (column t j)) eps.

(** [F.normalize(t, p=2, dim=0, eps=1e-12)]: [t / max(norm(t, dim=0), eps)]. *)
Definition normalize_values (t : Tensor) : Tensor :=
  tabulate (nrows t) (ncols t) (fun i j => get t i j / denom t j).

(** [a @ b] for rank-2 [a] and [b]. *)
Definition matmul_values (a b : Tensor) : exn + Tensor :=
  if (ncols a =? nrows b)%nat then
    inr (tabulate (nrows a) (ncols b)
           (fun i j => sum_list (map (fun k => get a i k * get b k j)
                                     (seq 0 (ncols a)))))
  else inl (MatmulShapeMismatch (nrows a, ncols a) (nrows b, ncols b)).

(** Ascending sort of a list of reals.  The sorted values do not depend on the
    algorithm ([sort_list_unique] below), so insertion sort stands for
    whatever torch runs. *)
Fixpoint insert_sorted (x : R) (l : list R) : list R :=
  match l with
  | [] => [x]
  | y :: l' => if Rle_dec x y then x :: l else y :: insert_sorted x l'
  end.

Fixpoint sort_list (l : list R) : list R :=
  match l with
  | [] => []
  | x :: l' => insert_sorted x (sort_list l')
  end.

(** The values of [torch.sort(t, dim=0)]: every column sorted on its own. *)
Definition sort_values (t : Tensor) : Tensor :=
  tabulate (nrows t) (ncols t) (fun i j => nth i (sort_list (column t j)) 0).

(** Broadcasting of one dimension: equal sizes, or one of them is 1. *)
Definition broadcast_dim (a b : nat) : option nat :=
  if (a =? b)%nat then Some a
  else if (a =? 1)%nat then Some b
  else if (b =? 1)%nat then Some a
  else None.

(** The index read in a dimension of size [size]: a dimension of size 1 is
    repeated. *)
Definition bidx (size i : nat) : nat := if (size =? 1)%nat then 0%nat else i.

(** [a - b] with broadcasting. *)
Definition sub_values (a b : Tensor) : exn + Tensor :=
  match broadcast_dim (nrows a) (nrows b), broadcast_dim (ncols a) (ncols b) with
  | Some n, Some m =>
      inr (tabulate n m (fun i j =>
             get a (bidx (nrows a) i) (bidx (ncols a) j)
             - get b (bidx (nrows b) i) (bidx (ncols b) j)))
  | _, _ => inl (BroadcastMismatch (nrows a, ncols a) (nrows b, ncols b))
  end.

(** [t ** 2] *)
Definition pow2_values (t : Tensor) : Tensor :=
  tabulate (nrows t) (ncols t) (fun i j => get t i j ^ 2).

(** [torch.mean(t)]: the sum of all entries over their number; nan when there
    is none. *)
Definition mean_values (t : Tensor) : Scalar :=
  if (numel t =? 0)%nat then NaN
  else Fin (sum_list (concat (rows t)) / INR (numel t)).

(* ================================================================= *)
(** ** The store and the monad of the program *)

(** Tensor objects by reference, and the state of the global generator. *)
Record State : Type := mkState {
  heap : gmap positive Tensor;
  generator : Generator
}.

Definition M (A : Type) : Type := State -> (exn + A) * State.

Definition ret {A} (x : A) : M A := fun s => (inr x, s).

Definition raise {A} (e : exn) : M A := fun s => (inl e, s).

Definition bind {A B} (m : M A) (f : A -> M B) : M B :=
  fun s => match m s with
           | (inl e, s') => (inl e, s')
           | (inr x, s') => f x s'
           end.

Notation "'let*' x ':=' m 'in' k" := (bind m (fun x => k))
  (at level 10, x name, m at level 100, k at level 200).

Definition lift {A} (r : exn + A) : M A :=
  match r with inl e => raise e | inr x => ret x end.

(** A new tensor object. *)
Definition alloc (t : Tensor) : M positive :=
  fun s => let l := fresh (dom (heap s)) in
           (inr l, mkState (<[l := t]> (heap s)) (generator s)).

Definition deref (l : positive) : M Tensor :=
  fun s => match heap s !! l with
           | Some t => (inr t, s)
           | None => (inl InvalidReference, s)
           end.

Definition draw (n : nat) : M Generator :=
  fun s => (inr (generator s), mkState (heap s) (advance n (generator s))).

(** Every object of [s] is still there, unchanged, in [s']. *)
Definition extends (s s' : State) : Prop := heap s ⊆ heap s'.

(* ================================================================= *)
(** ** The torch operations on objects *)

(** [t.shape] of a rank-2 tensor. *)
Definition shape (l : positive) : M (nat * nat) :=
  let* t := deref l in ret (nrows t, ncols t).

Definition torch_randn (d : nat) (k : Z) : M positive :=
  if (k <? 0)%Z then raise (NegativeDimension k)
  else let* g := draw (d * Z.to_nat k) in
       alloc (randn_values d (Z.to_nat k) g).

Definition F_normalize (l : positive) : M positive :=
  let* t := deref l in alloc (normalize_values t).

Definition matmul (la lb : positive) : M positive :=
  let* a := deref la in
  let* b := deref lb in
  let* c := lift (matmul_values a b) in
  alloc c.

(** [torch.sort(t, dim=0)]; the tensor of indices, which [sw_loss] drops, is
    not built. *)
Definition torch_sort (l : positive) : M positive :=
  let* t := deref l in alloc (sort_values t).

Definition sub (la lb : positive) : M positive :=
  let* a := deref la in
  let* b := deref lb in
  let* c := lift (sub_values a b) in
  alloc c.

Definition pow2 (l : positive) : M positive :=
  let* t := deref l in alloc (pow2_values t).

(** The 0-dimensional result is returned by value. *)
Definition torch_mean (l : positive) : M Scalar :=
  let* t := deref l in ret (mean_values t).

(* ================================================================= *)
(** ** loss.py *)

Definition sw_loss (true_distribution generated_distribution : positive)
    (num_projections : Z) : M Scalar :=
  let* sh := shape true_distribution in
  let feature_dim := snd sh in
  let* theta := torch_randn feature_dim num_projections in
  let* theta := F_normalize theta in
  let* proj_true := matmul true_distribution theta in
  let* proj_fake := matmul generated_distribution theta in
  let* proj_true_sorted := torch_sort proj_true in
  let* proj_fake_sorted := torch_sort proj_fake in
  let* diff := sub proj_true_sorted proj_fake_sorted in
  let* sq := pow2 diff in
  torch_mean sq.

(** Lines 25 to 35 of [sw_loss], from the projection matrix on: what the call
    does once [theta] is built. *)
Definition sw_loss_from_theta
    (true_distribution generated_distribution theta : positive) : M Scalar :=
  let* proj_true := matmul true_distribution theta in
  let* proj_fake := matmul generated_distribution theta in
  let* proj_true_sorted := torch_sort proj_true in
  let* proj_fake_sorted := torch_sort proj_fake in
  let* diff := sub proj_true_sorted proj_fake_sorted in
  let* sq := pow2 diff in
  torch_mean sq.

(** [class SWDLoss(nn.Module)]: [__init__] stores [num_projections]; no
    parameter, buffer or submodule is registered. *)
Record SWDLoss : Type := mkSWDLoss { num_projections : Z }.

Definition SWDLoss_init (num_projections : Z) : SWDLoss :=
  mkSWDLoss num_projections.

Definition forward (self : SWDLoss)
    (true_distribution generated_distribution : positive) : M Scalar :=
  sw_loss true_distribution generated_distribution (num_projections self).

(** The projection matrix of a call: [F.normalize(torch.randn(d, p), dim=0)]
    on the generator [g]. *)
Definition directions (d p : nat) (g : Generator) : Tensor :=
  normalize_values (randn_values d p g).

(** The value [sw_loss] computes, read off the program: what the call returns
    from the generator state and the two tensors behind its arguments
    ([sw_loss_run] below proves it of the program). *)
Definition sw_loss_value (g : Generator) (a b : Tensor) (k : Z) : exn + Scalar :=
  if (k <? 0)%Z then inl (NegativeDimension k)
  else
    let theta := directions (ncols a) (Z.to_nat k) g in
    match matmul_values a theta with
    | inl e => inl e
    | inr proj_true =>
        match matmul_values b theta with
        | inl e => inl e
        | inr proj_fake =>
            match sub_values (sort_values proj_true) (sort_values proj_fake) with
            | inl e => inl e
            | inr diff => inr (mean_values (pow2_values diff))
            end
        end
    end.

(* ================================================================= *)
(** ** The estimator in the words of the specification *)

Definition dot (u v : list R) : R :=
  sum_list (map (fun p => fst p * snd p) (combine u v)).

(** The projections of the vectors of a batch onto one direction. *)
Definition project (batch : list (list R)) (direction : list R) : list R :=
  map (fun x => dot x direction) batch.

Definition squared_differences (u v : list R) : list R :=
  map (fun p => (fst p - snd p) ^ 2) (combine u v).

Definition mean_list (l : list R) : Scalar :=
  match l with
  | [] => NaN
  | _ :: _ => Fin (sum_list l / INR (length l))
  end.

(** The squared differences of the sorted projections, direction by
    direction. *)
Definition sliced_entries (a b theta : Tensor) : list R :=
  concat (map (fun j =>
                 squared_differences
                   (sort_list (project (rows a) (column theta j)))
                   (sort_list (project (rows b) (column theta j))))
              (seq 0 (ncols theta))).

Definition sliced_distance (a b theta : Tensor) : Scalar :=
  mean_list (sliced_entries a b theta).

(** For batches of dimension 1: the mean squared difference of the sorted raw
    values. *)
Definition sorted_mse (a b : Tensor) : Scalar :=
  mean_list (squared_differences (sort_list (column a 0)) (sort_list (column b 0))).

(** One batch of a single vector [x] against a batch [b]: the squared
    differences between the projection of [x] and each of the sorted
    projections of [b], direction by direction. *)
Definition broadcast_entries (x : list R) (b theta : Tensor) : list R :=
  concat (map (fun j =>
                 map (fun y => (dot x (column theta j) - y) ^ 2)
                     (sort_list (project (rows b) (column theta j))))
              (seq 0 (ncols theta))).

(* ================================================================= *)
(** ** plot.py: [plot_loss] *)

(** The Python values [json.loads] builds. *)
#[warnings="-register-all"]
Inductive pyval : Type :=
  | PyNone
  | PyBool (b : bool)
  | PyInt (z : Z)
  | PyFloat (x : R)
  | PyStr (s : string)
  | PyList (l : list pyval)
  | PyDict (d : gmap string pyval).

(** [NotPlotted] is no Python exception: it marks an argument of [plt.plot]
    that is not a list of numbers, where the model of matplotlib stops. *)
Inductive pyexn : Type :=
  | FileNotFoundError (path : string)
  | JSONDecodeError
  | KeyError (key : string)
  | TypeError
  | NotPlotted.

(** [v[key]] for a string key. *)
Definition subscript (v : pyval) (key : string) : pyexn + pyval :=
  match v with
  | PyDict d =>
      match d !! key with
      | Some x => inr x
      | None => inl (KeyError key)
      end
  | _ => inl TypeError
  end.

Record Line2D : Type := mkLine2D {
  xdata : list R;
  ydata : list R;
  label : string;
  color : string;
  alpha : R
}.

Record Figure : Type := mkFigure {
  figsize : R * R;
  lines : list Line2D;
  xlabel : string;
  ylabel : string;
  title : string;
  legend : bool;
  grid : bool
}.

(** What a call of [plot_loss] leaves: the figure shown, and the file it was
    saved to. *)
Record Rendering : Type := mkRendering {
  figure : Figure;
  saved_to : option string
}.

Definition as_number (v : pyval) : option R :=
  match v with
  | PyInt z => Some (IZR z)
  | PyFloat x => Some x
  | _ => None
  end.

Fixpoint as_numbers (l : list pyval) : option (list R) :=
  match l with
  | [] => Some []
  | v :: l' =>
      match as_number v, as_numbers l' with
      | Some x, Some xs => Some (x :: xs)
      | _, _ => None
      end
  end.

Definition plt_figure (size : R * R) : Figure :=
  mkFigure size [] "" "" "" false false.

(** [plt.plot(y, label=.., color=.., alpha=..)] with the one positional
    argument: matplotlib takes [range(len(y))] for x. *)
Definition plt_plot (fig : Figure) (y : pyval) (lbl col : string) (a : R)
    : pyexn + Figure :=
  match y with
  | PyList l =>
      match as_numbers l with
      | Some ys =>
          inr (mkFigure (figsize fig)
                 (lines fig ++ [mkLine2D (map INR (seq 0 (length ys))) ys lbl col a])
                 (xlabel fig) (ylabel fig) (title fig) (legend fig) (grid fig))
      | None => inl NotPlotted
      end
  | _ => inl NotPlotted
  end.

Definition plt_xlabel (fig : Figure) (text : string) : Figure :=
  mkFigure (figsize fig) (lines fig) text (ylabel fig) (title fig)
    (legend fig) (grid fig).

Definition plt_ylabel (fig : Figure) (text : string) : Figure :=
  mkFigure (figsize fig) (lines fig) (xlabel fig) text (title fig)
    (legend fig) (grid fig).

Definition plt_title (fig : Figure) (text : string) : Figure :=
  mkFigure (figsize fig) (lines fig) (xlabel fig) (ylabel fig) text
    (legend fig) (grid fig).

Definition plt_legend (fig : Figure) : Figure :=
  mkFigure (figsize fig) (lines fig) (xlabel fig) (ylabel fig) (title fig)
    true (grid fig).

Definition plt_grid (fig : Figure) (on : bool) : Figure :=
  mkFigure (figsize fig) (lines fig) (xlabel fig) (ylabel fig) (title fig)
    (legend fig) on.

(** [if filename:] *)
Definition truthy (filename : option string) : bool :=
  match filename with
  | None => false
  | Some name => negb (String.eqb name "")
  end.

Section PlotLoss.

(** [json.loads], the parser of the standard library: [None] stands for
    [JSONDecodeError]. *)
Variable json_loads : string -> option pyval.

(** The files by path. *)
Variable fs : gmap string string.

Definition plot_loss (training_history_path : string) (filename : option string)
    : pyexn + Rendering :=
  match fs !! training_history_path with
  | None => inl (FileNotFoundError training_history_path)
  | Some file_contents =>
  match json_loads file_contents with
  | None => inl JSONDecodeError
  | Some history =>
  match subscript history "train_loss" with
  | inl e => inl e
  | inr train_loss =>
  match subscript history "valid_loss" with
  | inl e => inl e
  | inr valid_loss =>
  let fig := plt_figure (10, 5) in
  match plt_plot fig train_loss "Train Loss" "blue" 0.8 with
  | inl e => inl e
  | inr fig =>
  match plt_plot fig valid_loss "Valid Loss" "red" 0.8 with
  | inl e => inl e
  | inr fig =>
  let fig := plt_xlabel fig "Epoch" in
  let fig := plt_ylabel fig "Loss" in
  let fig := plt_title fig "Training and Validation Loss" in
  let fig := plt_legend fig in
  let fig := plt_grid fig true in
  inr (mkRendering fig (if truthy filename then filename else None))
  end end end end end end.

End PlotLoss.

(* ================================================================= *)
(** ** Sample inputs *)

(** Two batches of two points on the line, and a generator that draws 1. *)
Definition sample_a : Tensor := mkTensor 2 1 [[3]; [1]].
Definition sample_b : Tensor := mkTensor 2 1 [[2]; [5]].

Definition sample_store : State :=
  mkState (<[2%positive := sample_b]> (<[1%positive := sample_a]> ∅)) (fun _ => 1).

(** Feature dimensions 3 and 4. *)
Definition wide_a : Tensor := mkTensor 1 3 [[1; 2; 3]].
Definition wide_b : Tensor := mkTensor 1 4 [[1; 2; 3; 4]].

Definition wide_store : State :=
  mkState (<[2%positive := wide_b]> (<[1%positive := wide_a]> ∅)) (fun _ => 1).

(** Batches without a point. *)
Definition empty_1 : Tensor := mkTensor 0 1 [].
Definition empty_2 : Tensor := mkTensor 0 2 [].

Definition empty_store : State :=
  mkState (<[2%positive := empty_2]> (<[1%positive := empty_1]> ∅)) (fun _ => 1).

(** Batch sizes 1 and 2, and 3 and 2. *)
Definition single : Tensor := mkTensor 1 1 [[4]].
Definition triple : Tensor := mkTensor 3 1 [[1]; [2]; [3]].

Definition uneven_store : State :=
  mkState (<[3%positive := triple]>
             (<[2%positive := sample_b]> (<[1%positive := single]> ∅)))
          (fun _ => 1).

(** A generator that draws 0, and two batches of one point. *)
Definition point_0 : Tensor := mkTensor 1 1 [[0]].
Definition point_1 : Tensor := mkTensor 1 1 [[1]].

Definition zero_draw_store : State :=
  mkState (<[2%positive := point_1]> (<[1%positive := point_0]> ∅)) (fun _ => 0).

(** The history file of the specification's example, and a parser that knows
    this one text. *)
Definition quote : string := String "034"%char EmptyString.

Definition history_text : string :=
  ("{" ++ quote ++ "train_loss" ++ quote ++ ": [1.0, 0.5, 0.25], "
       ++ quote ++ "valid_loss" ++ quote ++ ": [1.2, 0.6, 0.3]}")%string.

Definition history_dict : gmap string pyval :=
  <["valid_loss"%string := PyList (map PyFloat [1.2; 0.6; 0.3])]>
    (<["train_loss"%string := PyList (map PyFloat [1; 0.5; 0.25])]> ∅).

Definition sample_loads (text : string) : option pyval :=
  if String.eqb text history_text then Some (PyDict history_dict) else None.

Definition sample_files : gmap string string :=
  <["broken.json"%string := "{"%string]>
    (<["history.json"%string := history_text]> ∅).

(* ================================================================= *)
(** ** plot.py: [plot_distributions] and [plot_model_results] *)

(** The exceptions of this part of [plot.py]: numpy's [IndexError] for an
    index outside an axis, the two [RuntimeError]s of [torch.stack], and
    whatever the model raises. *)
Inductive plot_exn : Type :=
  | IndexError (index size : nat)
  | StackEmpty
  | StackSizeMismatch
  | ModelError.

Definition and_then {E A B} (r : E + A) (f : A -> E + B) : E + B :=
  match r with
  | inl e => inl e
  | inr x => f x
  end.

Notation "'let+' x ':=' r 'in' k" := (and_then r (fun x => k))
  (at level 10, x name, r at level 100, k at level 200).

(** An argument of [plot_distributions]: a torch tensor or a numpy array, of
    rank 2. *)
Inductive array_like : Type :=
  | TorchTensor (t : Tensor)
  | NumpyArray (t : Tensor).

Definition is_tensor (x : array_like) : bool :=
  match x with
  | TorchTensor _ => true
  | NumpyArray _ => false
  end.

(** [x.cpu().detach().numpy()]: the same entries as a numpy array. *)
Definition cpu_detach_numpy (x : array_like) : array_like :=
  match x with
  | TorchTensor t => NumpyArray t
  | NumpyArray t => NumpyArray t
  end.

Definition entries (x : array_like) : Tensor :=
  match x with
  | TorchTensor t => t
  | NumpyArray t => t
  end.

(** [x[:, j]]: numpy checks [j] against the size of axis 1, whatever the
    number of rows. *)
Definition take_column (x : array_like) (j : nat) : plot_exn + list R :=
  if (j <? ncols (entries x))%nat then inr (column (entries x) j)
  else inl (IndexError j (ncols (entries x))).

Record Scatter : Type := mkScatter {
  sc_x : list R;
  sc_y : list R;
  sc_s : R;
  sc_alpha : R;
  sc_edgecolors : option string;
  sc_color : option string;
  sc_label : option string
}.

Record Axes : Type := mkAxes {
  scatters : list Scatter;
  ax_title : string;
  ax_xlabel : string;
  ax_ylabel : string;
  ax_grid : bool;
  ax_legend : bool
}.

(** The figure of [plt.subplots]: its axes from left to right. *)
Record Panels : Type := mkPanels {
  panels_size : R * R;
  axes : list Axes;
  suptitle : string
}.

Record Shown : Type := mkShown {
  shown : Panels;
  written_to : option string
}.

Definition plt_subplots (ncolumns : nat) (size : R * R) : Panels :=
  mkPanels size (repeat (mkAxes [] "" "" "" false false) ncolumns) "".

Definition ax_scatter (x y : list R) (s a : R) (edge col lbl : option string)
    (ax : Axes) : Axes :=
  mkAxes (scatters ax ++ [mkScatter x y s a edge col lbl])
    (ax_title ax) (ax_xlabel ax) (ax_ylabel ax) (ax_grid ax) (ax_legend ax).

Definition ax_set_title (text : string) (ax : Axes) : Axes :=
  mkAxes (scatters ax) text (ax_xlabel ax) (ax_ylabel ax) (ax_grid ax) (ax_legend ax).

Definition ax_set_xlabel (text : string) (ax : Axes) : Axes :=
  mkAxes (scatters ax) (ax_title ax) text (ax_ylabel ax) (ax_grid ax) (ax_legend ax).

Definition ax_set_ylabel (text : string) (ax : Axes) : Axes :=
  mkAxes (scatters ax) (ax_title ax) (ax_xlabel ax) text (ax_grid ax) (ax_legend ax).

Definition ax_set_grid (on : bool) (ax : Axes) : Axes :=
  mkAxes (scatters ax) (ax_title ax) (ax_xlabel ax) (ax_ylabel ax) on (ax_legend ax).

Definition ax_set_legend (ax : Axes) : Axes :=
  mkAxes (scatters ax) (ax_title ax) (ax_xlabel ax) (ax_ylabel ax) (ax_grid ax) true.

(** [axes[i].method(...)]: the axes object at index [i] is updated in
    place. *)
Definition on_axes (i : nat) (f : Axes -> Axes) (fig : Panels) : Panels :=
  mkPanels (panels_size fig) (alter f i (axes fig)) (suptitle fig).

Definition fig_suptitle (text : string) (fig : Panels) : Panels :=
  mkPanels (panels_size fig) (axes fig) text.

(** The four statements that follow the scatter of a plain panel. *)
Definition label_panel (i : nat) (text : string) (fig : Panels) : Panels :=
  let fig := on_axes i (ax_set_title text) fig in
  let fig := on_axes i (ax_set_xlabel "X") fig in
  let fig := on_axes i (ax_set_ylabel "Y") fig in
  on_axes i (ax_set_grid true) fig.

Definition plot_distributions (source generated target : array_like)
    (title : string) (filename : option string) : plot_exn + Shown :=
  let source := if is_tensor source then cpu_detach_numpy source else source in
  let generated :=
    if is_tensor generated then cpu_detach_numpy generated else generated in
  let target := if is_tensor target then cpu_detach_numpy target else target in
  let fig := plt_subplots 4 (12, 6) in
  let+ x := take_column source 0 in
  let+ y := take_column source 1 in
  let fig := on_axes 0 (ax_scatter x y 15 0.7 (Some "k") None None) fig in
  let fig := label_panel 0 "Source Distribution" fig in
  let+ x := take_column generated 0 in
  let+ y := take_column generated 1 in
  let fig := on_axes 1 (ax_scatter x y 15 0.7 (Some "k") None None) fig in
  let fig := label_panel 1 "Generated Distribution" fig in
  let+ x := take_column target 0 in
  let+ y := take_column target 1 in
  let fig := on_axes 2 (ax_scatter x y 15 0.7 (Some "k") None None) fig in
  let fig := label_panel 2 "Target Distribution" fig in
  let+ x := take_column generated 0 in
  let+ y := take_column generated 1 in
  let fig :=
    on_axes 3 (ax_scatter x y 15 0.7 None (Some "tab:orange") (Some "Generated"))
      fig in
  let+ x := take_column target 0 in
  let+ y := take_column target 1 in
  let fig :=
    on_axes 3 (ax_scatter x y 15 0.7 None (Some "tab:green") (Some "Target"))
      fig in
  let fig := on_axes 3 ax_set_legend fig in
  let fig := label_panel 3 "Generated vs Target" fig in
  let fig := fig_suptitle title fig in
  inr (mkShown fig (if truthy filename then filename else None)).

(** One item of a dataset: a point, or a tuple or list whose first component
    is the point. *)
Inductive sample : Type :=
  | Point (x : list R)
  | Tuple (x : list R) (others : list (list R)).

(** The two kinds of argument of [dataset_to_tensor]. *)
Inductive dataset : Type :=
  | TensorData (t : Tensor)
  | Samples (items : list sample).

(** [torch.stack] of tensors of rank 1. *)
Definition torch_stack (tensors : list (list R)) : plot_exn + Tensor :=
  match tensors with
  | [] => inl StackEmpty
  | x :: _ =>
      if forallb (fun y => (length y =? length x)%nat) tensors
      then inr (mkTensor (length tensors) (length x) tensors)
      else inl StackSizeMismatch
  end.

(** The loop of [dataset_to_tensor], from item [i] on, with the samples
    collected so far. *)
Fixpoint collect_samples (items : list sample) (samples : list (list R))
    : list (list R) :=
  match items with
  | [] => samples
  | item :: items' =>
      let item := match item with
                  | Point x => x
                  | Tuple x _ => x
                  end in
      collect_samples items' (samples ++ [item])
  end.

Definition dataset_to_tensor (data : dataset) : plot_exn + Tensor :=
  match data with
  | TensorData t => inr t
  | Samples items => torch_stack (collect_samples items [])
  end.

(** A [torch.nn.Module]: its mode, and what a call computes in each mode
    ([true] is training). *)
Record Module : Type := mkModule {
  training : bool;
  call : bool -> Tensor -> plot_exn + Tensor
}.

(** [model.eval()] *)
Definition eval (model : Module) : Module := mkModule false (call model).

(** Returns the outcome and the model as the call leaves it.  Moving a tensor
    between devices keeps its entries, and [torch.no_grad] changes no value:
    neither is modelled. *)
Definition plot_model_results (model : Module) (source_dataset target_dataset : dataset)
    (title : string) (filename : option string) : (plot_exn + Shown) * Module :=
  match dataset_to_tensor source_dataset with
  | inl e => (inl e, model)
  | inr source_tensor =>
  match dataset_to_tensor target_dataset with
  | inl e => (inl e, model)
  | inr target_tensor =>
  let model := eval model in
  match call model (training model) source_tensor with
  | inl e => (inl e, model)
  | inr generated_tensor =>
      (plot_distributions (TorchTensor source_tensor) (TorchTensor generated_tensor)
         (TorchTensor target_tensor) title filename, model)
  end end end.

(* ================================================================= *)
(** ** Notions used in the statements *)

(** The point of a dataset item. *)
Definition point_of (item : sample) : list R :=
  match item with
  | Point x => x
  | Tuple x _ => x
  end.

(** A panel with the first two coordinates of one batch. *)
Definition plain_panel (t : Tensor) (text : string) : Axes :=
  mkAxes [mkScatter (column t 0) (column t 1) 15 0.7 (Some "k") None None]
    text "X" "Y" true false.

(** The last panel: the generated batch, then the target batch. *)
Definition overlay_panel (generated target : Tensor) : Axes :=
  mkAxes [mkScatter (column generated 0) (column generated 1) 15 0.7 None
            (Some "tab:orange") (Some "Generated");
          mkScatter (column target 0) (column target 1) 15 0.7 None
            (Some "tab:green") (Some "Target")]
    "Generated vs Target" "X" "Y" true true.

(** The figure [plot_loss] builds from the two lists of numbers. *)
Definition loss_figure (train valid : list R) : Figure :=
  mkFigure (10, 5)
    [mkLine2D (map INR (seq 0 (length train))) train "Train Loss" "blue" 0.8;
     mkLine2D (map INR (seq 0 (length valid))) valid "Valid Loss" "red" 0.8]
    "Epoch" "Loss" "Training and Validation Loss" true true.

(** More sample inputs: a row permutation of [sample_a], points in the plane
    and in space, a dataset of labelled points, and a model that doubles in
    evaluation mode and fails in training mode. *)
Definition sample_a_swapped : Tensor := mkTensor 2 1 [[1]; [3]].

Definition permuted_store : State :=
  mkState (<[3%positive := sample_a_swapped]>
             (<[2%positive := sample_b]> (<[1%positive := sample_a]> ∅)))
          (fun _ => 1).

Definition plane : Tensor := mkTensor 2 2 [[1; 2]; [3; 4]].
Definition space : Tensor := mkTensor 2 3 [[1; 2; 7]; [3; 4; 8]].

Definition labelled_points : list sample :=
  [Tuple [1; 2] [[0]]; Point [3; 4]].

Definition ragged_points : list sample :=
  [Point [1; 2]; Point [3]].

Definition doubling : Module :=
  mkModule true
    (fun mode t =>
       if mode then inl ModelError
       else inr (tabulate (nrows t) (ncols t) (fun i j => 2 * get t i j))).

Definition other_doubling : Module :=
  mkModule false
    (fun _ t => inr (tabulate (nrows t) (ncols t) (fun i j => 2 * get t i j))).

Definition ints_dict : gmap string pyval :=
  <["valid_loss"%string := PyList [PyInt 2; PyFloat 0.5; PyInt 0]]>
    (<["train_loss"%string := PyList [PyInt 3; PyInt 1]]> ∅).

Definition train_only_dict : gmap string pyval :=
  <["train_loss"%string := PyStr "n/a"]> ∅.

Definition keyed_loads (text : string) : option pyval :=
  if String.eqb text "ints" then Some (PyDict ints_dict)
  else if String.eqb text "train only" then Some (PyDict train_only_dict)
  else if String.eqb text "empty object" then Some (PyDict ∅)
  else if String.eqb text "a list" then Some (PyList [])
  else None.

Definition keyed_files : gmap string string :=
  <["ints.json"%string := "ints"%string]>
    (<["train_only.json"%string := "train only"%string]>
       (<["empty.json"%string := "empty object"%string]>
          (<["list.json"%string := "a list"%string]> ∅))).

(* ================================================================= *)
(** ** Lists, sums and tabulated tensors *)

Lemma nth_map_seq {A} (f : nat -> A) (n i : nat) (d : A) :
  (i < n)%nat -> nth i (map f (seq 0 n)) d = f i.
Proof.
  intros Hi.
  rewrite (nth_indep _ d (f 0%nat)) by (rewrite length_map, length_seq; exact Hi).
  rewrite map_nth, seq_nth by exact Hi. reflexivity.
Qed.

Lemma list_as_map_seq {A} (u : list A) (d : A) :
  u = map (fun k => nth k u d) (seq 0 (length u)).
Proof.
  apply (nth_ext _ _ d d).
  - rewrite length_map, length_seq. reflexivity.
  - intros i Hi. rewrite nth_map_seq by exact Hi. reflexivity.
Qed.

Lemma get_tabulate (n m : nat) (f : nat -> nat -> R) (i j : nat) :
  (i < n)%nat -> (j < m)%nat -> get (tabulate n m f) i j = f i j.
Proof.
  intros Hi Hj. unfold get, tabulate. simpl.
  rewrite (nth_map_seq (fun i => map (fun j => f i j) (seq 0 m))) by exact Hi.
  apply nth_map_seq. exact Hj.
Qed.

Lemma tabulate_ext (n m : nat) (f g : nat -> nat -> R) :
  (forall i j, (i < n)%nat -> (j < m)%nat -> f i j = g i j) ->
  tabulate n m f = tabulate n m g.
Proof.
  intros H. unfold tabulate. f_equal.
  apply map_ext_in. intros i Hi. apply in_seq in Hi.
  apply map_ext_in. intros j Hj. apply in_seq in Hj.
  apply H; lia.
Qed.

Lemma column_tabulate (n m : nat) (f : nat -> nat -> R) (j : nat) :
  (j < m)%nat -> column (tabulate n m f) j = map (fun i => f i j) (seq 0 n).
Proof.
  intros Hj. unfold column. simpl.
  apply map_ext_in. intros i Hi. apply in_seq in Hi.
  apply get_tabulate; lia.
Qed.

Lemma has_shape_tabulate (n m : nat) (f : nat -> nat -> R) :
  has_shape (tabulate n m f) n m.
Proof.
  unfold has_shape, tabulate. simpl. repeat split.
  - rewrite length_map, length_seq. reflexivity.
  - apply List.Forall_forall. intros r Hr. apply in_map_iff in Hr.
    destruct Hr as [i [<- _]]. rewrite length_map, length_seq. reflexivity.
Qed.

Lemma sum_list_app (l1 l2 : list R) :
  sum_list (l1 ++ l2) = sum_list l1 + sum_list l2.
Proof. induction l1 as [|x l1 IH]; simpl; [lra | rewrite IH; lra]. Qed.

Lemma sum_list_concat (ls : list (list R)) :
  sum_list (concat ls) = sum_list (map sum_list ls).
Proof.
  induction ls as [|l ls IH]; simpl; [reflexivity|].
  rewrite sum_list_app, IH. reflexivity.
Qed.

Lemma sum_list_rev (l : list R) : sum_list (rev l) = sum_list l.
Proof.
  induction l as [|x l IH]; simpl; [reflexivity|].
  rewrite sum_list_app, IH. simpl. lra.
Qed.

Lemma sum_list_nonneg (l : list R) :
  Forall (fun x => 0 <= x) l -> 0 <= sum_list l.
Proof.
  induction 1 as [|x l Hx _ IH]; simpl; lra.
Qed.

Lemma sum_list_zero (l : list R) :
  Forall (fun x => x = 0) l -> sum_list l = 0.
Proof.
  induction 1 as [|x l Hx _ IH]; simpl; lra.
Qed.

Lemma sum_list_map_plus {A} (f g : A -> R) (l : list A) :
  sum_list (map (fun x => f x + g x) l) = sum_list (map f l) + sum_list (map g l).
Proof. induction l as [|x l IH]; simpl; [lra | rewrite IH; lra]. Qed.

Lemma sum_list_map_const {A} (c : R) (l : list A) :
  sum_list (map (fun _ => c) l) = INR (length l) * c.
Proof.
  induction l as [|x l IH]; [simpl; lra|].
  change (length (x :: l)) with (S (length l)). rewrite S_INR.
  simpl. rewrite IH. lra.
Qed.

(** The two orders of a double sum. *)
Lemma sum_list_swap {A B} (f : A -> B -> R) (la : list A) (lb : list B) :
  sum_list (map (fun x => sum_list (map (fun y => f x y) lb)) la)
  = sum_list (map (fun y => sum_list (map (fun x => f x y) la)) lb).
Proof.
  induction la as [|a la IH]; simpl.
  - symmetry. apply sum_list_zero. apply List.Forall_forall.
    intros x Hx. apply in_map_iff in Hx. destruct Hx as [y [<- _]]. reflexivity.
  - rewrite IH. symmetry.
    apply (sum_list_map_plus (fun y => f a y)
             (fun y => sum_list (map (fun x => f x y) la))).
Qed.

(** The sum of all entries, by rows and by columns. *)
Lemma sum_entries_tabulate (n m : nat) (f : nat -> nat -> R) :
  sum_list (concat (rows (tabulate n m f)))
  = sum_list (map (fun j => sum_list (map (fun i => f i j) (seq 0 n))) (seq 0 m)).
Proof.
  unfold tabulate. simpl. rewrite sum_list_concat, map_map.
  apply (sum_list_swap f (seq 0 n) (seq 0 m)).
Qed.

(* ================================================================= *)
(** ** The sort *)

Lemma insert_sorted_perm (x : R) (l : list R) :
  Permutation (x :: l) (insert_sorted x l).
Proof.
  induction l as [|y l IH]; simpl.
  - apply Permutation_refl.
  - destruct (Rle_dec x y).
    + apply Permutation_refl.
    + eapply perm_trans; [apply perm_swap|]. apply perm_skip. exact IH.
Qed.

Lemma sort_list_perm (l : list R) : Permutation l (sort_list l).
Proof.
  induction l as [|x l IH]; simpl.
  - apply perm_nil.
  - eapply perm_trans; [apply perm_skip; exact IH|]. apply insert_sorted_perm.
Qed.

Lemma length_sort_list (l : list R) : length (sort_list l) = length l.
Proof. symmetry. apply Permutation_length, sort_list_perm. Qed.

Lemma insert_sorted_sorted (x : R) (l : list R) :
  StronglySorted Rle l -> StronglySorted Rle (insert_sorted x l).
Proof.
  induction 1 as [|y l Hl IH Hy]; simpl.
  - constructor; constructor.
  - destruct (Rle_dec x y) as [Hxy|Hxy].
    + constructor; [constructor; assumption|].
      constructor; [exact Hxy|].
      eapply List.Forall_impl; [|exact Hy]. simpl. intros z Hz. lra.
    + constructor; [exact IH|].
      eapply Permutation_Forall; [apply insert_sorted_perm|].
      constructor; [lra | exact Hy].
Qed.

Lemma sort_list_sorted (l : list R) : StronglySorted Rle (sort_list l).
Proof.
  induction l as [|x l IH]; simpl.
  - constructor.
  - apply insert_sorted_sorted, IH.
Qed.

Example sort_list_3_1_2 : sort_list [3; 1; 2] = [1; 2; 3].
Proof.
  simpl.
  destruct (Rle_dec 1 2) as [_|H]; [|exfalso; apply H; lra].
  simpl.
  destruct (Rle_dec 3 1) as [H|_]; [exfalso; lra|].
  destruct (Rle_dec 3 2) as [H|_]; [exfalso; lra|].
  reflexivity.
Qed.

(** An ascending list is determined by its elements. *)
Lemma sorted_perm_unique (l1 l2 : list R) :
  StronglySorted Rle l1 -> StronglySorted Rle l2 -> Permutation l1 l2 -> l1 = l2.
Proof.
  intros H1. revert l2.
  induction H1 as [|x l1 Hl1 IH Hx]; intros l2 H2 Hp.
  - apply Permutation_nil in Hp. symmetry. exact Hp.
  - destruct H2 as [|y l2 Hl2 Hy].
    + apply Permutation_sym, Permutation_nil in Hp. discriminate Hp.
    + assert (Hxy : x = y).
      { assert (Hin1 : In x (y :: l2))
          by (eapply Permutation_in; [exact Hp | left; reflexivity]).
        assert (Hin2 : In y (x :: l1))
          by (eapply Permutation_in; [apply Permutation_sym; exact Hp | left; reflexivity]).
        rewrite List.Forall_forall in Hx, Hy.
        destruct Hin1 as [E|Hin1]; [symmetry; exact E|].
        destruct Hin2 as [E|Hin2]; [exact E|].
        apply Rle_antisym; [apply Hx, Hin2 | apply Hy, Hin1]. }
      subst y. f_equal. apply IH; [exact Hl2|].
      eapply Permutation_cons_inv. exact Hp.
Qed.

Lemma sort_list_unique (l l' : list R) :
  StronglySorted Rle l' -> Permutation l l' -> sort_list l = l'.
Proof.
  intros Hs Hp. apply sorted_perm_unique.
  - apply sort_list_sorted.
  - exact Hs.
  - eapply perm_trans; [apply Permutation_sym, sort_list_perm | exact Hp].
Qed.

Lemma sorted_snoc (l : list R) (x : R) :
  StronglySorted Rle l -> Forall (fun y => y <= x) l ->
  StronglySorted Rle (l ++ [x]).
Proof.
  induction 1 as [|y l Hl IH Hy]; intros Hx; simpl.
  - constructor; constructor.
  - inversion Hx as [|? ? Hyx Hlx]; subst.
    constructor; [apply IH; exact Hlx|].
    apply List.Forall_app. split; [exact Hy|]. constructor; [exact Hyx | constructor].
Qed.

(** Negating the values reverses their order. *)
Lemma sort_list_opp (l : list R) :
  sort_list (map Ropp l) = rev (map Ropp (sort_list l)).
Proof.
  apply sort_list_unique.
  - generalize (sort_list_sorted l).
    induction 1 as [|x s Hs IH Hx]; simpl; [constructor|].
    apply sorted_snoc; [exact IH|].
    apply List.Forall_forall. intros y Hy.
    apply in_rev, in_map_iff in Hy. destruct Hy as [z [<- Hz]].
    rewrite List.Forall_forall in Hx. specialize (Hx z Hz). lra.
  - eapply perm_trans; [|apply Permutation_rev].
    apply Permutation_map, sort_list_perm.
Qed.

(* ================================================================= *)
(** ** The value of [sw_loss], step by step *)

Lemma bidx_lt (size i : nat) : (i < size)%nat -> bidx size i = i.
Proof.
  unfold bidx. intros Hi. destruct (Nat.eqb_spec size 1); [lia | reflexivity].
Qed.

Lemma broadcast_dim_refl (n : nat) : broadcast_dim n n = Some n.
Proof. unfold broadcast_dim. rewrite Nat.eqb_refl. reflexivity. Qed.

Lemma combine_map_seq {A B} (f : nat -> A) (g : nat -> B) (l : list nat) :
  combine (map f l) (map g l) = map (fun k => (f k, g k)) l.
Proof. induction l as [|k l IH]; simpl; [reflexivity | rewrite IH; reflexivity]. Qed.

Lemma dot_map_seq (u : list R) (f : nat -> R) :
  dot u (map f (seq 0 (length u)))
  = sum_list (map (fun k => nth k u 0 * f k) (seq 0 (length u))).
Proof.
  unfold dot.
  assert (Hc : combine u (map f (seq 0 (length u)))
               = map (fun k => (nth k u 0, f k)) (seq 0 (length u))).
  { rewrite <- combine_map_seq. f_equal. apply list_as_map_seq. }
  rewrite Hc, map_map. reflexivity.
Qed.

Lemma squared_differences_index (u v : list R) (n : nat) :
  length u = n -> length v = n ->
  map (fun i => (nth i u 0 - nth i v 0) ^ 2) (seq 0 n) = squared_differences u v.
Proof.
  intros Hu Hv. unfold squared_differences.
  assert (Hc : combine u v = map (fun k => (nth k u 0, nth k v 0)) (seq 0 n)).
  { rewrite <- combine_map_seq.
    f_equal; [rewrite <- Hu | rewrite <- Hv]; apply list_as_map_seq. }
  rewrite Hc, map_map. reflexivity.
Qed.

Lemma length_squared_differences (u v : list R) :
  length u = length v -> length (squared_differences u v) = length u.
Proof.
  intros H. unfold squared_differences.
  rewrite length_map, length_combine. lia.
Qed.

Lemma length_project (batch : list (list R)) (direction : list R) :
  length (project batch direction) = length batch.
Proof. unfold project. apply length_map. Qed.

(** A column of [a @ theta] holds the projections of the rows of [a] onto the
    column of [theta]. *)
Lemma matmul_column (a theta : Tensor) (n d j : nat) :
  has_shape a n d -> nrows theta = d -> (j < ncols theta)%nat ->
  map (fun i => sum_list (map (fun k => get a i k * get theta k j) (seq 0 d)))
      (seq 0 n)
  = project (rows a) (column theta j).
Proof.
  intros (_ & _ & Hlen & Hrows) Hd Hj. unfold project.
  assert (Hr : rows a = map (fun i => nth i (rows a) []) (seq 0 n))
    by (rewrite <- Hlen; apply list_as_map_seq).
  rewrite Hr at 1. rewrite map_map.
  apply map_ext_in. intros i Hi. apply in_seq in Hi.
  assert (Hrow : length (nth i (rows a) []) = d).
  { rewrite List.Forall_forall in Hrows. apply Hrows, nth_In. lia. }
  unfold column. rewrite Hd.
  pose proof (dot_map_seq (nth i (rows a) []) (fun k => get theta k j)) as Hdot.
  rewrite Hrow in Hdot. rewrite Hdot. reflexivity.
Qed.

Lemma length_concat_const {A} (ls : list (list A)) (n : nat) :
  Forall (fun l => length l = n) ls -> length (concat ls) = (length ls * n)%nat.
Proof.
  induction 1 as [|l ls Hl _ IH]; simpl; [reflexivity|].
  rewrite length_app, IH, Hl. reflexivity.
Qed.

Lemma length_sliced_entries (a b theta : Tensor) :
  length (rows a) = length (rows b) ->
  length (sliced_entries a b theta) = (ncols theta * length (rows a))%nat.
Proof.
  intros Hab. unfold sliced_entries.
  rewrite (length_concat_const _ (length (rows a))).
  - rewrite length_map, length_seq. reflexivity.
  - apply List.Forall_forall. intros l Hl. apply in_map_iff in Hl.
    destruct Hl as [j [<- _]].
    rewrite length_squared_differences;
      rewrite !length_sort_list, !length_project; [reflexivity | exact Hab].
Qed.

Lemma mean_list_length (l : list R) :
  mean_list l = if (length l =? 0)%nat then NaN
                else Fin (sum_list l / INR (length l)).
Proof. destruct l; reflexivity. Qed.

(** On batches of one shape the program computes the sliced distance of the
    specification, for the directions it draws and normalizes. *)
Lemma sw_loss_value_sliced (g : Generator) (a b : Tensor) (k : Z) (n d : nat) :
  has_shape a n d -> has_shape b n d -> (0 <= k)%Z ->
  sw_loss_value g a b k
  = inr (sliced_distance a b (directions d (Z.to_nat k) g)).
Proof.
  intros Ha Hb Hk.
  pose proof Ha as (Han & Had & Hal & _). pose proof Hb as (Hbn & Hbd & Hbl & _).
  unfold sw_loss_value.
  destruct (Z.ltb_spec k 0) as [Hneg|_]; [lia|].
  rewrite Had. set (p := Z.to_nat k). set (theta := directions d p g).
  assert (Htr : nrows theta = d) by reflexivity.
  assert (Htc : ncols theta = p) by reflexivity.
  unfold matmul_values. rewrite Had, Hbd, Htr, Nat.eqb_refl, Han, Hbn, Htc.
  unfold sub_values, sort_values. simpl nrows. simpl ncols.
  rewrite !broadcast_dim_refl. f_equal.
  unfold sliced_distance. rewrite mean_list_length.
  rewrite length_sliced_entries by congruence.
  rewrite Htc, Hal. unfold mean_values, numel, pow2_values. simpl nrows. simpl ncols.
  rewrite (Nat.mul_comm p n).
  destruct (Nat.eqb_spec (n * p) 0) as [|Hnp]; [reflexivity|].
  f_equal. f_equal.
  rewrite sum_entries_tabulate. unfold sliced_entries.
  rewrite sum_list_concat, map_map, Htc.
  f_equal. apply map_ext_in. intros j Hj. apply in_seq in Hj.
  rewrite <- (matmul_column a theta n d j) by (try assumption; lia).
  rewrite <- (matmul_column b theta n d j) by (try assumption; lia).
  rewrite <- (squared_differences_index _ _ n)
    by (rewrite length_sort_list, length_map, length_seq; reflexivity).
  f_equal. apply map_ext_in. intros i Hi. apply in_seq in Hi.
  rewrite !get_tabulate by lia.
  rewrite !bidx_lt by lia.
  rewrite !get_tabulate by lia.
  rewrite !column_tabulate by lia. reflexivity.
Qed.

(* ================================================================= *)
(** ** Running the program on a store *)

Lemma extends_refl (s : State) : extends s s.
Proof. unfold extends. reflexivity. Qed.

Lemma extends_trans (s1 s2 s3 : State) :
  extends s1 s2 -> extends s2 s3 -> extends s1 s3.
Proof. unfold extends. intros H1 H2. etrans; eassumption. Qed.

Lemma extends_lookup (s s' : State) (l : positive) (t : Tensor) :
  extends s s' -> heap s !! l = Some t -> heap s' !! l = Some t.
Proof. unfold extends. intros H Hl. eapply lookup_weaken; eassumption. Qed.

Lemma bind_ok {A B} (m : M A) (f : A -> M B) (s s' : State) (x : A) :
  m s = (inr x, s') -> bind m f s = f x s'.
Proof. unfold bind. intros ->. reflexivity. Qed.

Lemma bind_raise {A B} (m : M A) (f : A -> M B) (s s' : State) (e : exn) :
  m s = (inl e, s') -> bind m f s = (inl e, s').
Proof. unfold bind. intros ->. reflexivity. Qed.

Lemma deref_ok (l : positive) (t : Tensor) (s : State) :
  heap s !! l = Some t -> deref l s = (inr t, s).
Proof. unfold deref. intros ->. reflexivity. Qed.

Lemma alloc_spec (t : Tensor) (s : State) :
  exists l s', alloc t s = (inr l, s') /\ heap s' !! l = Some t /\
               extends s s' /\ generator s' = generator s.
Proof.
  eexists _, _. split; [reflexivity|]. simpl. repeat split.
  - apply lookup_insert_eq.
  - unfold extends. simpl. apply insert_subseteq.
    apply not_elem_of_dom, is_fresh.
Qed.

Lemma unary_spec (f : Tensor -> Tensor) (l : positive) (t : Tensor) (s : State) :
  heap s !! l = Some t ->
  exists l' s', bind (deref l) (fun t => alloc (f t)) s = (inr l', s') /\
                heap s' !! l' = Some (f t) /\ extends s s'.
Proof.
  intros Hl. destruct (alloc_spec (f t) s) as (l' & s' & Hrun & Hl' & Hext & _).
  exists l', s'. rewrite (bind_ok _ _ _ _ _ (deref_ok _ _ _ Hl)). auto.
Qed.

Lemma binary_spec (f : Tensor -> Tensor -> exn + Tensor) (la lb : positive)
    (a b : Tensor) (s : State) :
  heap s !! la = Some a -> heap s !! lb = Some b ->
  match f a b with
  | inl e =>
      bind (deref la) (fun a => bind (deref lb) (fun b =>
        bind (lift (f a b)) (fun c => alloc c))) s = (inl e, s)
  | inr c =>
      exists l' s',
        bind (deref la) (fun a => bind (deref lb) (fun b =>
          bind (lift (f a b)) (fun c => alloc c))) s = (inr l', s') /\
        heap s' !! l' = Some c /\ extends s s'
  end.
Proof.
  intros Ha Hb.
  rewrite (bind_ok _ _ _ _ _ (deref_ok _ _ _ Ha)).
  rewrite (bind_ok _ _ _ _ _ (deref_ok _ _ _ Hb)).
  destruct (f a b) as [e|c]; [reflexivity|].
  destruct (alloc_spec c s) as (l' & s' & Hrun & Hl' & Hext & _).
  exists l', s'. auto.
Qed.

Lemma torch_randn_spec (d : nat) (k : Z) (s : State) :
  if (k <? 0)%Z then torch_randn d k s = (inl (NegativeDimension k), s)
  else exists l s', torch_randn d k s = (inr l, s') /\
         heap s' !! l = Some (randn_values d (Z.to_nat k) (generator s)) /\
         extends s s'.
Proof.
  unfold torch_randn. destruct (k <? 0)%Z; [reflexivity|].
  destruct (alloc_spec (randn_values d (Z.to_nat k) (generator s))
              (mkState (heap s) (advance (d * Z.to_nat k) (generator s))))
    as (l & s' & Hrun & Hl & Hext & _).
  exists l, s'. auto.
Qed.

(** The call returns [sw_loss_value] of the tensors behind its arguments and
    leaves every object of the store as it was. *)
Lemma sw_loss_run (la lb : positive) (a b : Tensor) (k : Z) (s : State) :
  heap s !! la = Some a -> heap s !! lb = Some b ->
  exists s', sw_loss la lb k s = (sw_loss_value (generator s) a b k, s') /\
             extends s s'.
Proof.
  intros Ha Hb. unfold sw_loss, sw_loss_value, shape.
  rewrite (bind_ok _ _ _ _ _ (bind_ok _ _ _ _ _ (deref_ok _ _ _ Ha))). simpl snd.
  pose proof (torch_randn_spec (ncols a) k s) as Hr.
  destruct (k <? 0)%Z.
  { rewrite (bind_raise _ _ _ _ _ Hr). eexists; split; [reflexivity | apply extends_refl]. }
  destruct Hr as (l1 & s1 & Hr & Hl1 & E1). rewrite (bind_ok _ _ _ _ _ Hr).
  destruct (unary_spec normalize_values l1 _ s1 Hl1) as (l2 & s2 & Hn & Hl2 & E2).
  unfold F_normalize. rewrite (bind_ok _ _ _ _ _ Hn).
  fold (directions (ncols a) (Z.to_nat k) (generator s)) in Hl2 |- *.
  set (theta := directions (ncols a) (Z.to_nat k) (generator s)) in *.
  assert (E02 : extends s s2) by (eapply extends_trans; eassumption).
  pose proof (binary_spec matmul_values la l2 a theta s2
                (extends_lookup _ _ _ _ E02 Ha) Hl2) as Hm1.
  unfold matmul at 1.
  destruct (matmul_values a theta) as [e|pa].
  { rewrite (bind_raise _ _ _ _ _ Hm1). eexists; split; [reflexivity | exact E02]. }
  destruct Hm1 as (l3 & s3 & Hm1 & Hl3 & E3). rewrite (bind_ok _ _ _ _ _ Hm1).
  assert (E03 : extends s s3) by (eapply extends_trans; eassumption).
  pose proof (binary_spec matmul_values lb l2 b theta s3
                (extends_lookup _ _ _ _ E03 Hb) (extends_lookup _ _ _ _ E3 Hl2)) as Hm2.
  unfold matmul.
  destruct (matmul_values b theta) as [e|pb].
  { rewrite (bind_raise _ _ _ _ _ Hm2). eexists; split; [reflexivity | exact E03]. }
  destruct Hm2 as (l4 & s4 & Hm2 & Hl4 & E4). rewrite (bind_ok _ _ _ _ _ Hm2).
  destruct (unary_spec sort_values l3 _ s4 (extends_lookup _ _ _ _ E4 Hl3))
    as (l5 & s5 & Hs1 & Hl5 & E5).
  unfold torch_sort at 1. rewrite (bind_ok _ _ _ _ _ Hs1).
  destruct (unary_spec sort_values l4 _ s5 (extends_lookup _ _ _ _ E5 Hl4))
    as (l6 & s6 & Hs2 & Hl6 & E6).
  unfold torch_sort. rewrite (bind_ok _ _ _ _ _ Hs2).
  assert (E06 : extends s s6)
    by exact (extends_trans _ _ _
                (extends_trans _ _ _ (extends_trans _ _ _ E03 E4) E5) E6).
  pose proof (binary_spec sub_values l5 l6 _ _ s6
                (extends_lookup _ _ _ _ E6 Hl5) Hl6) as Hd.
  unfold sub.
  destruct (sub_values (sort_values pa) (sort_values pb)) as [e|diff].
  { rewrite (bind_raise _ _ _ _ _ Hd). eexists; split; [reflexivity | exact E06]. }
  destruct Hd as (l7 & s7 & Hd & Hl7 & E7). rewrite (bind_ok _ _ _ _ _ Hd).
  destruct (unary_spec pow2_values l7 _ s7 Hl7) as (l8 & s8 & Hp & Hl8 & E8).
  unfold pow2. rewrite (bind_ok _ _ _ _ _ Hp).
  unfold torch_mean. rewrite (bind_ok _ _ _ _ _ (deref_ok _ _ _ Hl8)).
  eexists; split; [reflexivity|].
  exact (extends_trans _ _ _ (extends_trans _ _ _ E06 E7) E8).
Qed.

(* ================================================================= *)
(** ** The estimator on batches of one shape *)

Lemma squared_differences_nonneg (u v : list R) :
  Forall (fun x => 0 <= x) (squared_differences u v).
Proof.
  unfold squared_differences. apply List.Forall_forall. intros x Hx.
  apply in_map_iff in Hx. destruct Hx as [p [<- _]]. apply pow2_ge_0.
Qed.

Lemma squared_differences_same (u : list R) :
  Forall (fun x => x = 0) (squared_differences u u).
Proof.
  unfold squared_differences. induction u as [|x u IH]; simpl; constructor.
  - simpl. ring.
  - exact IH.
Qed.

Lemma Forall_concat {A} (P : A -> Prop) (ls : list (list A)) :
  Forall (Forall P) ls -> Forall P (concat ls).
Proof.
  induction 1 as [|l ls Hl _ IH]; simpl; [constructor|].
  apply List.Forall_app. split; assumption.
Qed.

Lemma sliced_entries_nonneg (a b theta : Tensor) :
  Forall (fun x => 0 <= x) (sliced_entries a b theta).
Proof.
  unfold sliced_entries. apply Forall_concat. apply List.Forall_forall.
  intros l Hl. apply in_map_iff in Hl. destruct Hl as [j [<- _]].
  apply squared_differences_nonneg.
Qed.

Lemma sliced_entries_same (a theta : Tensor) :
  Forall (fun x => x = 0) (sliced_entries a a theta).
Proof.
  unfold sliced_entries. apply Forall_concat. apply List.Forall_forall.
  intros l Hl. apply in_map_iff in Hl. destruct Hl as [j [<- _]].
  apply squared_differences_same.
Qed.

Lemma has_shape_directions (d p : nat) (g : Generator) :
  has_shape (directions d p g) d p.
Proof. unfold directions, normalize_values. apply has_shape_tabulate. Qed.

Lemma INR_pos (n : nat) : (1 <= n)%nat -> 0 < INR n.
Proof. intros H. apply lt_0_INR. lia. Qed.

(** On non-empty batches of one shape, with at least one direction, the
    program returns the mean of a non-empty list. *)
Lemma sw_loss_value_fin (g : Generator) (a b : Tensor) (k : Z) (n d : nat) :
  has_shape a n d -> has_shape b n d -> (1 <= n)%nat -> (1 <= k)%Z ->
  let entries := sliced_entries a b (directions d (Z.to_nat k) g) in
  sw_loss_value g a b k = inr (Fin (sum_list entries / INR (length entries)))
  /\ (1 <= length entries)%nat.
Proof.
  intros Ha Hb Hn Hk entries.
  assert (Hlen : length entries = (Z.to_nat k * n)%nat).
  { unfold entries. rewrite length_sliced_entries.
    - destruct Ha as (_ & _ & -> & _). reflexivity.
    - destruct Ha as (_ & _ & -> & _), Hb as (_ & _ & -> & _). reflexivity. }
  assert (Hpos : (1 <= length entries)%nat) by (rewrite Hlen; nia).
  split; [|exact Hpos].
  rewrite (sw_loss_value_sliced g a b k n d) by (try assumption; lia).
  unfold sliced_distance. fold entries.
  destruct entries; [simpl in Hpos; lia | reflexivity].
Qed.

(* ================================================================= *)
(** ** The claims on [sw_loss] *)

Lemma has_shape_sample_a : has_shape sample_a 2 1.
Proof. unfold has_shape. simpl. repeat split. repeat constructor. Qed.

Lemma has_shape_sample_b : has_shape sample_b 2 1.
Proof. unfold has_shape. simpl. repeat split. repeat constructor. Qed.

Lemma has_shape_empty_1 : has_shape empty_1 0 1.
Proof. unfold has_shape. simpl. repeat split. constructor. Qed.

Lemma has_shape_empty_2 : has_shape empty_2 0 2.
Proof. unfold has_shape. simpl. repeat split. constructor. Qed.

(** The mean over no entry: a batch without a point gives nan. *)
Lemma sw_loss_value_empty (g : Generator) (a b : Tensor) (k : Z) (d : nat) :
  has_shape a 0 d -> has_shape b 0 d -> (0 <= k)%Z ->
  sw_loss_value g a b k = inr NaN.
Proof.
  intros Ha Hb Hk. rewrite (sw_loss_value_sliced g a b k 0 d) by assumption.
  unfold sliced_distance. rewrite mean_list_length, length_sliced_entries.
  - destruct Ha as (_ & _ & -> & _). rewrite Nat.mul_0_r. reflexivity.
  - destruct Ha as (_ & _ & -> & _), Hb as (_ & _ & -> & _). reflexivity.
Qed.

(** C2, as stated, fails on batches of shape (0, 1): equal batch sizes, equal
    feature dimensions, one direction, and the call returns nan, which is not
    a number >= 0. *)
Lemma C2_counterexample_empty_batch :
  has_shape empty_1 0 1
  /\ fst (sw_loss 1 1 1 empty_store) = inr NaN
  /\ ~ (exists v, fst (sw_loss 1 1 1 empty_store) = inr (Fin v) /\ 0 <= v).
Proof.
  assert (H : fst (sw_loss 1 1 1 empty_store) = inr NaN).
  { destruct (sw_loss_run 1 1 empty_1 empty_1 1 empty_store eq_refl eq_refl)
      as (s' & Hrun & _).
    rewrite Hrun. simpl fst.
    apply (sw_loss_value_empty _ _ _ _ 1); [exact has_shape_empty_1 .. | lia]. }
  split; [exact has_shape_empty_1|]. split; [exact H|].
  intros (v & Hv & _). rewrite H in Hv. discriminate Hv.
Qed.

(** C2 (amended): on non-empty batches of one shape with finite entries, with
    at least one direction, and in exact arithmetic (neither rounding nor
    overflow), [sw_loss] returns a number, and it is >= 0. *)
Theorem C2_sw_loss_nonneg
    (la lb : positive) (a b : Tensor) (n d : nat) (k : Z) (s : State) :
  heap s !! la = Some a -> heap s !! lb = Some b ->
  has_shape a n d -> has_shape b n d -> (1 <= n)%nat -> (1 <= k)%Z ->
  exists v, fst (sw_loss la lb k s) = inr (Fin v) /\ 0 <= v.
Proof.
  intros Hla Hlb Ha Hb Hn Hk.
  destruct (sw_loss_run la lb a b k s Hla Hlb) as (s' & Hrun & _).
  destruct (sw_loss_value_fin (generator s) a b k n d Ha Hb Hn Hk) as [Hv Hlen].
  eexists. rewrite Hrun. split; [exact Hv|].
  apply Rmult_le_pos.
  - apply sum_list_nonneg, sliced_entries_nonneg.
  - left. apply Rinv_0_lt_compat, INR_pos, Hlen.
Qed.

(** C2 on the sample store. *)
Lemma C2_witness :
  exists v, fst (sw_loss 1 2 3 sample_store) = inr (Fin v) /\ 0 <= v.
Proof.
  apply (C2_sw_loss_nonneg 1 2 sample_a sample_b 2 1 3 sample_store).
  - reflexivity.
  - reflexivity.
  - exact has_shape_sample_a.
  - exact has_shape_sample_b.
  - lia.
  - lia.
Defined.

(** C3, as stated, fails on a batch of shape (0, 2): the same tensor on both
    sides, three directions, and the call returns nan instead of 0. *)
Lemma C3_counterexample_empty_batch :
  has_shape empty_2 0 2
  /\ fst (sw_loss 2 2 3 empty_store) = inr NaN
  /\ fst (sw_loss 2 2 3 empty_store) <> inr (Fin 0).
Proof.
  assert (H : fst (sw_loss 2 2 3 empty_store) = inr NaN).
  { destruct (sw_loss_run 2 2 empty_2 empty_2 3 empty_store eq_refl eq_refl)
      as (s' & Hrun & _).
    rewrite Hrun. simpl fst.
    apply (sw_loss_value_empty _ _ _ _ 2); [exact has_shape_empty_2 .. | lia]. }
  split; [exact has_shape_empty_2|]. split; [exact H|].
  rewrite H. discriminate.
Qed.

(** C3 (amended): when both arguments are the same non-empty batch of finite
    entries (the same object, or two tensors of equal value), [sw_loss],
    computed in exact arithmetic (neither rounding nor overflow), returns
    exactly 0, for every number of directions P >= 1 and every state of the
    generator. *)
Theorem C3_sw_loss_identical_batches
    (la lb : positive) (a : Tensor) (n d : nat) (k : Z) (s : State) :
  heap s !! la = Some a -> heap s !! lb = Some a ->
  has_shape a n d -> (1 <= n)%nat -> (1 <= k)%Z ->
  fst (sw_loss la lb k s) = inr (Fin 0).
Proof.
  intros Hla Hlb Ha Hn Hk.
  destruct (sw_loss_run la lb a a k s Hla Hlb) as (s' & Hrun & _).
  destruct (sw_loss_value_fin (generator s) a a k n d Ha Ha Hn Hk) as [Hv _].
  rewrite Hrun. simpl fst. rewrite Hv. do 2 f_equal.
  rewrite (sum_list_zero _ (sliced_entries_same a _)).
  unfold Rdiv. apply Rmult_0_l.
Qed.

(** C3 with the first sample batch on both sides. *)
Lemma C3_witness : fst (sw_loss 1 1 3 sample_store) = inr (Fin 0).
Proof.
  apply (C3_sw_loss_identical_batches 1 1 sample_a 2 1 3 sample_store).
  - reflexivity.
  - reflexivity.
  - exact has_shape_sample_a.
  - lia.
  - lia.
Defined.

(* ================================================================= *)
(** ** Normalized directions *)

Lemma eps_pos : 0 < eps.
Proof. unfold eps. lra. Qed.

Lemma sum_squares_nonneg (v : list R) : 0 <= sum_list (map (fun x => x * x) v).
Proof.
  apply sum_list_nonneg, List.Forall_forall. intros y Hy.
  apply in_map_iff in Hy. destruct Hy as [x [<- _]]. nra.
Qed.

Lemma norm2_nonneg (v : list R) : 0 <= norm2 v.
Proof. unfold norm2. apply sqrt_pos. Qed.

Lemma denom_ge_eps (t : Tensor) (j : nat) : eps <= denom t j.
Proof. unfold denom. apply Rmax_r. Qed.

Lemma denom_pos (t : Tensor) (j : nat) : 0 < denom t j.
Proof. pose proof (denom_ge_eps t j). pose proof eps_pos. lra. Qed.

Lemma sum_list_map_scale {A} (c : R) (f : A -> R) (l : list A) :
  sum_list (map (fun x => f x * c) l) = sum_list (map f l) * c.
Proof. induction l as [|x l IH]; simpl; [lra | rewrite IH; lra]. Qed.

(** Dividing a vector by [c > 0] divides its norm by [c]. *)
Lemma norm2_scale (v : list R) (c : R) :
  0 < c -> norm2 (map (fun x => x / c) v) = norm2 v / c.
Proof.
  intros Hc. unfold norm2. rewrite map_map.
  assert (Hsum : sum_list (map (fun x => x / c * (x / c)) v)
                 = sum_list (map (fun x => x * x) v) * (/ c * / c)).
  { rewrite <- (sum_list_map_scale (/ c * / c) (fun x => x * x)).
    f_equal. apply map_ext. intros x. unfold Rdiv. ring. }
  rewrite Hsum, sqrt_mult_alt by apply sum_squares_nonneg.
  assert (Hinv : 0 < / c) by (apply Rinv_0_lt_compat; exact Hc).
  rewrite sqrt_square by lra. reflexivity.
Qed.

Lemma column_directions (d p : nat) (g : Generator) (j : nat) :
  (j < p)%nat ->
  column (directions d p g) j
  = map (fun x => x / denom (randn_values d p g) j)
        (column (randn_values d p g) j).
Proof.
  intros Hj. unfold directions, normalize_values.
  change (nrows (randn_values d p g)) with d.
  change (ncols (randn_values d p g)) with p.
  rewrite column_tabulate by exact Hj.
  unfold column. change (nrows (randn_values d p g)) with d.
  rewrite map_map. reflexivity.
Qed.

(** The norm of a column of the projection matrix, from the norm of the
    column drawn. *)
Lemma norm2_column_directions (d p : nat) (g : Generator) (j : nat) :
  (j < p)%nat ->
  norm2 (column (directions d p g) j)
  = norm2 (column (randn_values d p g) j) / denom (randn_values d p g) j.
Proof.
  intros Hj. rewrite column_directions by exact Hj.
  apply norm2_scale, denom_pos.
Qed.

(** Lines 18 to 22 of [sw_loss]: the call builds the projection matrix
    [directions] and goes on with it. *)
Lemma sw_loss_builds_theta (la lb : positive) (a : Tensor) (k : Z) (s : State) :
  heap s !! la = Some a -> (0 <= k)%Z ->
  exists l s1,
    sw_loss la lb k s = sw_loss_from_theta la lb l s1
    /\ heap s1 !! l = Some (directions (ncols a) (Z.to_nat k) (generator s)).
Proof.
  intros Ha Hk. unfold sw_loss, shape.
  rewrite (bind_ok _ _ _ _ _ (bind_ok _ _ _ _ _ (deref_ok _ _ _ Ha))). simpl snd.
  pose proof (torch_randn_spec (ncols a) k s) as Hr.
  destruct (Z.ltb_spec k 0) as [Hneg|_]; [lia|].
  destruct Hr as (l1 & s1 & Hr & Hl1 & _).
  destruct (unary_spec normalize_values l1 _ s1 Hl1) as (l2 & s2 & Hn & Hl2 & _).
  exists l2, s2. rewrite (bind_ok _ _ _ _ _ Hr).
  unfold F_normalize. rewrite (bind_ok _ _ _ _ _ Hn).
  split; [reflexivity | exact Hl2].
Qed.

(** C7, as stated, fails when the generator draws 0: the one column of the
    (1, 1) projection matrix is divided by [eps], stays 0, and has norm 0. *)
Lemma C7_counterexample_zero_draw :
  exists l s1 theta,
    sw_loss 1 2 1 zero_draw_store = sw_loss_from_theta 1 2 l s1
    /\ heap s1 !! l = Some theta
    /\ norm2 (column theta 0) = 0
    /\ norm2 (column theta 0) <> 1.
Proof.
  destruct (sw_loss_builds_theta 1 2 point_0 1 zero_draw_store eq_refl)
    as (l & s1 & Hrun & Hl); [lia|].
  exists l, s1, (directions 1 1 (generator zero_draw_store)).
  split; [exact Hrun|]. split; [exact Hl|].
  assert (H0 : norm2 (column (directions 1 1 (generator zero_draw_store)) 0) = 0).
  { rewrite norm2_column_directions by lia.
    assert (Hn : norm2 (column (randn_values 1 1 (generator zero_draw_store)) 0) = 0).
    { unfold norm2, column, randn_values. simpl nrows. simpl seq. simpl map.
      rewrite get_tabulate by lia. simpl.
      replace (0 * 0 + 0) with 0 by ring. apply sqrt_0. }
    rewrite Hn. unfold Rdiv. apply Rmult_0_l. }
  split; [exact H0|]. rewrite H0. lra.
Qed.

(** C7 (amended): in a call of [sw_loss] with a valid number of directions,
    the matrix built before projecting has shape
    (feature_dim, num_projections); the divisor of every column is at least
    [eps = 1e-12], so never 0; a column drawn with norm at least [eps] has unit
    norm after normalization; a column drawn with a smaller norm is divided by
    [eps] and keeps a norm below 1. *)
Theorem C7_projection_matrix_columns
    (la lb : positive) (a : Tensor) (k : Z) (s : State) :
  heap s !! la = Some a -> (0 <= k)%Z ->
  let drawn := randn_values (ncols a) (Z.to_nat k) (generator s) in
  exists l s1 theta,
    sw_loss la lb k s = sw_loss_from_theta la lb l s1
    /\ heap s1 !! l = Some theta
    /\ has_shape theta (ncols a) (Z.to_nat k)
    /\ forall j, (j < Z.to_nat k)%nat ->
         0 < eps <= denom drawn j
         /\ (eps <= norm2 (column drawn j) -> norm2 (column theta j) = 1)
         /\ (norm2 (column drawn j) < eps ->
             norm2 (column theta j) = norm2 (column drawn j) / eps
             /\ norm2 (column theta j) < 1).
Proof.
  intros Ha Hk drawn.
  destruct (sw_loss_builds_theta la lb a k s Ha Hk) as (l & s1 & Hrun & Hl).
  exists l, s1, (directions (ncols a) (Z.to_nat k) (generator s)).
  split; [exact Hrun|]. split; [exact Hl|].
  split; [apply has_shape_directions|].
  intros j Hj. pose proof eps_pos as He.
  split; [split; [exact He | apply denom_ge_eps]|].
  rewrite norm2_column_directions by exact Hj. fold drawn.
  unfold denom. split.
  - intros Hge. rewrite Rmax_left by exact Hge. field. lra.
  - intros Hlt. rewrite Rmax_right by lra. split; [reflexivity|].
    apply (Rmult_lt_reg_r eps); [exact He|].
    unfold Rdiv. rewrite Rmult_assoc, Rinv_l by lra. lra.
Qed.

(** C7 on the sample store, with three directions. *)
Lemma C7_witness :
  let drawn := randn_values (ncols sample_a) (Z.to_nat 3) (generator sample_store) in
  exists l s1 theta,
    sw_loss 1 2 3 sample_store = sw_loss_from_theta 1 2 l s1
    /\ heap s1 !! l = Some theta
    /\ has_shape theta (ncols sample_a) (Z.to_nat 3)
    /\ forall j, (j < Z.to_nat 3)%nat ->
         0 < eps <= denom drawn j
         /\ (eps <= norm2 (column drawn j) -> norm2 (column theta j) = 1)
         /\ (norm2 (column drawn j) < eps ->
             norm2 (column theta j) = norm2 (column drawn j) / eps
             /\ norm2 (column theta j) < 1).
Proof.
  apply (C7_projection_matrix_columns 1 2 sample_a 3 sample_store).
  - reflexivity.
  - lia.
Defined.

(* ================================================================= *)
(** ** Batches of dimension 1 *)

Lemma combine_snoc {A B} (u : list A) (v : list B) (x : A) (y : B) :
  length u = length v ->
  combine (u ++ [x]) (v ++ [y]) = combine u v ++ [(x, y)].
Proof.
  revert v. induction u as [|a u IH]; intros [|b v] H; simpl in *; try discriminate.
  - reflexivity.
  - rewrite IH by lia. reflexivity.
Qed.

Lemma combine_rev {A B} (u : list A) (v : list B) :
  length u = length v -> combine (rev u) (rev v) = rev (combine u v).
Proof.
  revert v. induction u as [|a u IH]; intros [|b v] H; simpl in *; try discriminate.
  - reflexivity.
  - rewrite combine_snoc by (rewrite !length_rev; lia).
    rewrite IH by lia. reflexivity.
Qed.

Lemma squared_differences_rev (u v : list R) :
  length u = length v ->
  squared_differences (rev u) (rev v) = rev (squared_differences u v).
Proof.
  intros H. unfold squared_differences.
  rewrite combine_rev by exact H. apply map_rev.
Qed.

Lemma squared_differences_opp (u v : list R) :
  squared_differences (map Ropp u) (map Ropp v) = squared_differences u v.
Proof.
  unfold squared_differences. revert v.
  induction u as [|x u IH]; intros [|y v]; simpl; try reflexivity.
  rewrite IH. f_equal. ring.
Qed.

(** Sorting the values multiplied by a direction 1 or -1 does not change the
    sum of the squared differences. *)
Lemma sum_sorted_scaled (u v : list R) (t : R) :
  length u = length v -> t = 1 \/ t = -1 ->
  sum_list (squared_differences (sort_list (map (fun x => x * t) u))
                                (sort_list (map (fun x => x * t) v)))
  = sum_list (squared_differences (sort_list u) (sort_list v)).
Proof.
  intros Hlen [-> | ->].
  - rewrite !(map_ext (fun x => x * 1) (fun x => x)) by (intros; ring).
    rewrite !map_id. reflexivity.
  - rewrite !(map_ext (fun x => x * -1) Ropp) by (intros; ring).
    rewrite !sort_list_opp.
    rewrite squared_differences_rev
      by (rewrite !length_map, !length_sort_list; exact Hlen).
    rewrite sum_list_rev, squared_differences_opp. reflexivity.
Qed.

Lemma norm2_single (x : R) : norm2 [x] = Rabs x.
Proof.
  unfold norm2. simpl. replace (x * x + 0) with (Rsqr x) by (unfold Rsqr; ring).
  apply sqrt_Rsqr_abs.
Qed.

Lemma unit_1d (x : R) : eps <= Rabs x -> x / Rmax (Rabs x) eps = 1 \/ x / Rmax (Rabs x) eps = -1.
Proof.
  intros H. pose proof eps_pos as He. rewrite Rmax_left by exact H.
  unfold Rabs in *. destruct (Rcase_abs x).
  - right. field. lra.
  - left. field. lra.
Qed.

(** The one entry of a column of the (1, p) projection matrix. *)
Lemma column_directions_1d (p : nat) (g : Generator) (j : nat) :
  (j < p)%nat ->
  column (directions 1 p g) j = [g j / Rmax (Rabs (g j)) eps].
Proof.
  intros Hj. rewrite column_directions by exact Hj.
  unfold denom.
  assert (Hc : column (randn_values 1 p g) j = [g j]).
  { unfold randn_values. rewrite column_tabulate by exact Hj. reflexivity. }
  rewrite Hc, norm2_single. reflexivity.
Qed.

(** The projections of a batch of dimension 1 are its values times the
    direction. *)
Lemma project_1d (a : Tensor) (n : nat) (t : R) :
  has_shape a n 1 -> project (rows a) [t] = map (fun x => x * t) (column a 0).
Proof.
  intros (Hn & _ & Hlen & Hrows). unfold project, column, get.
  rewrite Hn, <- Hlen.
  rewrite (list_as_map_seq (rows a) []) at 1. rewrite !map_map.
  apply map_ext_in. intros i Hi. apply in_seq in Hi.
  assert (Hrow : length (nth i (rows a) []) = 1%nat).
  { rewrite List.Forall_forall in Hrows. apply Hrows, nth_In. lia. }
  destruct (nth i (rows a) []) as [|x [|y r]]; simpl in Hrow; try discriminate.
  unfold dot. simpl. ring.
Qed.

Lemma length_column (a : Tensor) (j : nat) : length (column a j) = nrows a.
Proof. unfold column. rewrite length_map, length_seq. reflexivity. Qed.

(** With every drawn direction of absolute value at least [eps], the value on
    batches of dimension 1 is the mean squared difference of the sorted raw
    values. *)
Lemma sw_loss_value_1d (g : Generator) (a b : Tensor) (k : Z) (n : nat) :
  has_shape a n 1 -> has_shape b n 1 -> (1 <= k)%Z ->
  (forall j, (j < Z.to_nat k)%nat -> eps <= Rabs (g j)) ->
  sw_loss_value g a b k = inr (sorted_mse a b).
Proof.
  intros Ha Hb Hk Hg.
  rewrite (sw_loss_value_sliced g a b k n 1) by (try assumption; lia).
  f_equal. unfold sliced_distance, sorted_mse.
  set (p := Z.to_nat k) in *.
  set (raw := squared_differences (sort_list (column a 0)) (sort_list (column b 0))).
  assert (Hcols : length (column a 0) = length (column b 0)).
  { rewrite !length_column. destruct Ha as (-> & _), Hb as (-> & _). reflexivity. }
  assert (Hraw : length raw = n).
  { unfold raw. rewrite length_squared_differences, length_sort_list, length_column.
    - destruct Ha as (-> & _). reflexivity.
    - rewrite !length_sort_list. exact Hcols. }
  assert (Hlen : length (sliced_entries a b (directions 1 p g)) = (p * n)%nat).
  { rewrite length_sliced_entries.
    - destruct Ha as (_ & _ & -> & _). reflexivity.
    - destruct Ha as (_ & _ & -> & _), Hb as (_ & _ & -> & _). reflexivity. }
  assert (Hsum : sum_list (sliced_entries a b (directions 1 p g))
                 = INR p * sum_list raw).
  { unfold sliced_entries. rewrite sum_list_concat, map_map.
    change (ncols (directions 1 p g)) with p.
    replace (INR p) with (INR (length (seq 0 p)))
      by (rewrite length_seq; reflexivity).
    rewrite <- (sum_list_map_const (sum_list raw) (seq 0 p)).
    f_equal. apply map_ext_in. intros j Hj. apply in_seq in Hj.
    rewrite column_directions_1d by lia.
    rewrite (project_1d a n), (project_1d b n) by assumption.
    apply sum_sorted_scaled; [exact Hcols|].
    apply unit_1d, Hg. lia. }
  rewrite !mean_list_length, Hlen, Hraw, Hsum.
  destruct (Nat.eqb_spec n 0) as [->|Hn0].
  - rewrite Nat.mul_0_r. reflexivity.
  - destruct (Nat.eqb_spec (p * n) 0) as [Hz|_]; [unfold p in Hz; nia|].
    f_equal. rewrite mult_INR.
    assert (0 < INR p) by (apply INR_pos; unfold p; lia).
    assert (0 < INR n) by (apply INR_pos; lia).
    field. lra.
Qed.

Lemma has_shape_point_0 : has_shape point_0 1 1.
Proof. unfold has_shape. simpl. repeat split. repeat constructor. Qed.

Lemma has_shape_point_1 : has_shape point_1 1 1.
Proof. unfold has_shape. simpl. repeat split. repeat constructor. Qed.

(** C6, as stated, fails when the generator draws 0: the direction is 0 after
    normalization, not 1 or -1; both batches project to 0 and the score is 0,
    while the mean squared difference of the raw values 0 and 1 is 1. *)
Lemma C6_counterexample_zero_draw :
  has_shape point_0 1 1 /\ has_shape point_1 1 1
  /\ fst (sw_loss 1 2 1 zero_draw_store) = inr (Fin 0)
  /\ sorted_mse point_0 point_1 = Fin 1
  /\ fst (sw_loss 1 2 1 zero_draw_store) <> inr (sorted_mse point_0 point_1).
Proof.
  assert (Hcode : fst (sw_loss 1 2 1 zero_draw_store) = inr (Fin 0)).
  { destruct (sw_loss_run 1 2 point_0 point_1 1 zero_draw_store eq_refl eq_refl)
      as (s' & Hrun & _).
    rewrite Hrun. simpl fst.
    rewrite (sw_loss_value_sliced _ point_0 point_1 1 1 1)
      by (try exact has_shape_point_0; try exact has_shape_point_1; lia).
    unfold sliced_distance, sliced_entries.
    change (ncols (directions 1 (Z.to_nat 1) (generator zero_draw_store))) with 1%nat.
    change (Z.to_nat 1) with 1%nat.
    simpl seq. simpl map. rewrite column_directions_1d by lia.
    simpl. do 2 f_equal. unfold dot. simpl. unfold Rdiv. rewrite Rinv_1. ring. }
  assert (Hspec : sorted_mse point_0 point_1 = Fin 1).
  { unfold sorted_mse. simpl. unfold get. simpl. f_equal.
    unfold Rdiv. rewrite Rinv_1. ring. }
  split; [exact has_shape_point_0|]. split; [exact has_shape_point_1|].
  split; [exact Hcode|]. split; [exact Hspec|].
  rewrite Hcode, Hspec. intros H. injection H as H. lra.
Qed.

Example sorted_mse_sample : sorted_mse sample_a sample_b = Fin (5 / 2).
Proof.
  unfold sorted_mse, column, get. simpl.
  destruct (Rle_dec 3 1) as [H|_]; [exfalso; lra|].
  destruct (Rle_dec 2 5) as [_|H]; [|exfalso; apply H; lra].
  simpl. f_equal. field.
Qed.

(** C6 (amended): on two batches of dimension 1 and one batch size, with
    P >= 1 directions each drawn with absolute value at least [eps] (so that
    its normalization is 1 or -1), [sw_loss] returns the mean squared
    difference of the ascending sorted raw values of the two batches, whatever
    the directions. *)
Theorem C6_sw_loss_one_dimensional
    (la lb : positive) (a b : Tensor) (n : nat) (k : Z) (s : State) :
  heap s !! la = Some a -> heap s !! lb = Some b ->
  has_shape a n 1 -> has_shape b n 1 -> (1 <= k)%Z ->
  (forall j, (j < Z.to_nat k)%nat -> eps <= Rabs (generator s j)) ->
  fst (sw_loss la lb k s) = inr (sorted_mse a b).
Proof.
  intros Hla Hlb Ha Hb Hk Hg.
  destruct (sw_loss_run la lb a b k s Hla Hlb) as (s' & Hrun & _).
  rewrite Hrun. simpl fst. apply (sw_loss_value_1d _ a b k n); assumption.
Qed.

(** C6 on the sample store, whose generator draws 1. *)
Lemma C6_witness :
  fst (sw_loss 1 2 3 sample_store) = inr (sorted_mse sample_a sample_b).
Proof.
  apply (C6_sw_loss_one_dimensional 1 2 sample_a sample_b 2 3 sample_store).
  - reflexivity.
  - reflexivity.
  - exact has_shape_sample_a.
  - exact has_shape_sample_b.
  - lia.
  - intros j _. simpl. rewrite Rabs_R1. unfold eps. lra.
Defined.

(* ================================================================= *)
(** ** The value returned, and the matrix it is computed on *)

(** An entry of the projection matrix: the sample drawn for it, over the
    clamped norm of the samples drawn for its column. *)
Lemma get_directions (d p : nat) (g : Generator) (i j : nat) :
  (i < d)%nat -> (j < p)%nat ->
  get (directions d p g) i j
  = g (i * p + j)%nat
    / Rmax (norm2 (map (fun i' => g (i' * p + j)%nat) (seq 0 d))) eps.
Proof.
  intros Hi Hj. unfold directions, normalize_values.
  change (nrows (randn_values d p g)) with d.
  change (ncols (randn_values d p g)) with p.
  rewrite get_tabulate by assumption.
  unfold denom, randn_values.
  rewrite get_tabulate, column_tabulate by assumption. reflexivity.
Qed.

Lemma norm2_unit_column (d p : nat) (g : Generator) (j : nat) :
  (j < p)%nat -> eps <= norm2 (column (randn_values d p g) j) ->
  norm2 (column (directions d p g) j) = 1.
Proof.
  intros Hj Hge. pose proof eps_pos as He.
  rewrite norm2_column_directions by exact Hj.
  unfold denom. rewrite Rmax_left by exact Hge. field. lra.
Qed.

(** C1, as stated, fails when the generator draws 0: the score is the mean of
    the squared differences of the sorted projections onto the matrix the
    call builds, but the two columns of that (1, 2) matrix are 0, not unit
    vectors. *)
Lemma C1_counterexample_zero_draw :
  exists l s1 theta,
    sw_loss 1 2 2 zero_draw_store = sw_loss_from_theta 1 2 l s1
    /\ heap s1 !! l = Some theta
    /\ fst (sw_loss 1 2 2 zero_draw_store)
       = inr (sliced_distance point_0 point_1 theta)
    /\ get theta 0 0 = 0 /\ get theta 0 1 = 0
    /\ norm2 (column theta 0) <> 1 /\ norm2 (column theta 1) <> 1.
Proof.
  destruct (sw_loss_builds_theta 1 2 point_0 2 zero_draw_store eq_refl)
    as (l & s1 & Hrun & Hl); [lia|].
  exists l, s1, (directions 1 2 (generator zero_draw_store)).
  split; [exact Hrun|]. split; [exact Hl|]. split.
  { destruct (sw_loss_run 1 2 point_0 point_1 2 zero_draw_store eq_refl eq_refl)
      as (s' & Hrun' & _).
    rewrite Hrun'. simpl fst.
    apply (sw_loss_value_sliced _ point_0 point_1 2 1 1);
      [exact has_shape_point_0 | exact has_shape_point_1 | lia]. }
  assert (Hz : forall j, (j < 2)%nat ->
             get (directions 1 2 (generator zero_draw_store)) 0 j = 0).
  { intros j Hj. rewrite get_directions by lia. simpl generator.
    unfold Rdiv. apply Rmult_0_l. }
  assert (Hn : forall j, (j < 2)%nat ->
             norm2 (column (directions 1 2 (generator zero_draw_store)) j) = 0).
  { intros j Hj. unfold column.
    change (nrows (directions 1 2 (generator zero_draw_store))) with 1%nat.
    simpl seq. simpl map. rewrite Hz by exact Hj.
    unfold norm2. simpl. replace (0 * 0 + 0) with 0 by ring. apply sqrt_0. }
  split; [apply Hz; lia|]. split; [apply Hz; lia|].
  split; rewrite Hn by lia; lra.
Qed.

(** C1 (amended): on two batches of shape (n, d) and with P >= 1 directions,
    [sw_loss] returns the mean, over n * P entries, of the squared differences
    between the ascending sorted projections of the two batches, direction by
    direction, onto the (d, P) matrix [theta] it builds.  Every entry of
    [theta] is the sample drawn for it divided by the larger of the norm of
    its drawn column and [eps = 1e-12]; a column drawn with norm at least
    [eps] is a unit vector.  A sorted list is the ascending permutation of
    its input. *)
Theorem C1_sw_loss_mean_of_sorted_squared_differences
    (la lb : positive) (a b : Tensor) (n d : nat) (k : Z) (s : State) :
  heap s !! la = Some a -> heap s !! lb = Some b ->
  has_shape a n d -> has_shape b n d -> (1 <= k)%Z ->
  let p := Z.to_nat k in
  let g := generator s in
  exists l s1 theta,
    sw_loss la lb k s = sw_loss_from_theta la lb l s1
    /\ heap s1 !! l = Some theta
    /\ fst (sw_loss la lb k s) = inr (sliced_distance a b theta)
    /\ has_shape theta d p
    /\ length (sliced_entries a b theta) = (n * p)%nat
    /\ (forall i j, (i < d)%nat -> (j < p)%nat ->
          get theta i j
          = g (i * p + j)%nat
            / Rmax (norm2 (map (fun i' => g (i' * p + j)%nat) (seq 0 d))) eps)
    /\ (forall j, (j < p)%nat ->
          eps <= norm2 (map (fun i' => g (i' * p + j)%nat) (seq 0 d)) ->
          norm2 (column theta j) = 1)
    /\ (forall l, StronglySorted Rle (sort_list l) /\ Permutation l (sort_list l)).
Proof.
  intros Hla Hlb Ha Hb Hk p g.
  assert (Hd : ncols a = d) by (destruct Ha as (_ & H & _); exact H).
  destruct (sw_loss_builds_theta la lb a k s Hla) as (l & s1 & Hbuild & Hl); [lia|].
  rewrite Hd in Hl. fold p g in Hl.
  exists l, s1, (directions d p g).
  split; [exact Hbuild|]. split; [exact Hl|].
  destruct (sw_loss_run la lb a b k s Hla Hlb) as (s' & Hrun & _).
  rewrite Hrun. simpl fst. split; [|split; [|split; [|split; [|split]]]].
  - apply (sw_loss_value_sliced _ a b k n d); try assumption. lia.
  - apply has_shape_directions.
  - rewrite length_sliced_entries.
    + destruct Ha as (_ & _ & -> & _). apply Nat.mul_comm.
    + destruct Ha as (_ & _ & -> & _), Hb as (_ & _ & -> & _). reflexivity.
  - intros i j Hi Hj. apply get_directions; assumption.
  - intros j Hj Hge. apply norm2_unit_column; [exact Hj|].
    unfold randn_values. rewrite column_tabulate by exact Hj. exact Hge.
  - intros l0. split; [apply sort_list_sorted | apply sort_list_perm].
Qed.

(** C1 on the sample store, with three directions. *)
Lemma C1_witness :
  let p := Z.to_nat 3 in
  let g := generator sample_store in
  exists l s1 theta,
    sw_loss 1 2 3 sample_store = sw_loss_from_theta 1 2 l s1
    /\ heap s1 !! l = Some theta
    /\ fst (sw_loss 1 2 3 sample_store) = inr (sliced_distance sample_a sample_b theta)
    /\ has_shape theta 1 p
    /\ length (sliced_entries sample_a sample_b theta) = (2 * p)%nat
    /\ (forall i j, (i < 1)%nat -> (j < p)%nat ->
          get theta i j
          = g (i * p + j)%nat
            / Rmax (norm2 (map (fun i' => g (i' * p + j)%nat) (seq 0 1))) eps)
    /\ (forall j, (j < p)%nat ->
          eps <= norm2 (map (fun i' => g (i' * p + j)%nat) (seq 0 1)) ->
          norm2 (column theta j) = 1)
    /\ (forall l, StronglySorted Rle (sort_list l) /\ Permutation l (sort_list l)).
Proof.
  apply (C1_sw_loss_mean_of_sorted_squared_differences
           1 2 sample_a sample_b 2 1 3 sample_store).
  - reflexivity.
  - reflexivity.
  - exact has_shape_sample_a.
  - exact has_shape_sample_b.
  - lia.
Defined.

(* ================================================================= *)
(** ** Shapes that do not agree *)

(** C4: when the feature dimensions of the two batches differ, the call
    raises: no score is returned.  With a valid number of directions the
    exception is the shape error of the second product,
    [generated_distribution @ theta], where [theta] has the feature dimension
    of the first batch. *)
Theorem C4_sw_loss_feature_dim_mismatch
    (la lb : positive) (a b : Tensor) (k : Z) (s : State) :
  heap s !! la = Some a -> heap s !! lb = Some b ->
  ncols a <> ncols b ->
  exists e, fst (sw_loss la lb k s) = inl e
    /\ ((0 <= k)%Z ->
        e = MatmulShapeMismatch (nrows b, ncols b) (ncols a, Z.to_nat k)).
Proof.
  intros Hla Hlb Hd.
  destruct (sw_loss_run la lb a b k s Hla Hlb) as (s' & Hrun & _).
  rewrite Hrun. simpl fst. unfold sw_loss_value.
  destruct (Z.ltb_spec k 0) as [Hneg|Hk].
  { eexists. split; [reflexivity | intros; lia]. }
  unfold matmul_values.
  change (nrows (directions (ncols a) (Z.to_nat k) (generator s))) with (ncols a).
  change (ncols (directions (ncols a) (Z.to_nat k) (generator s))) with (Z.to_nat k).
  rewrite Nat.eqb_refl.
  destruct (Nat.eqb_spec (ncols b) (ncols a)) as [E|_]; [congruence|].
  eexists. split; reflexivity.
Qed.

(** C4 on feature dimensions 3 and 4. *)
Lemma C4_witness :
  exists e, fst (sw_loss 1 2 100 wide_store) = inl e
    /\ ((0 <= 100)%Z ->
        e = MatmulShapeMismatch (nrows wide_b, ncols wide_b)
              (ncols wide_a, Z.to_nat 100)).
Proof.
  apply (C4_sw_loss_feature_dim_mismatch 1 2 wide_a wide_b 100 wide_store).
  - reflexivity.
  - reflexivity.
  - simpl. lia.
Defined.

(** With equal feature dimensions the call raises exactly when the batch
    sizes do not broadcast. *)
Lemma sw_loss_value_batch_sizes (g : Generator) (a b : Tensor) (k : Z) :
  ncols a = ncols b -> (0 <= k)%Z ->
  match broadcast_dim (nrows a) (nrows b) with
  | Some _ => exists score, sw_loss_value g a b k = inr score
  | None =>
      sw_loss_value g a b k
      = inl (BroadcastMismatch (nrows a, Z.to_nat k) (nrows b, Z.to_nat k))
  end.
Proof.
  intros Hd Hk. unfold sw_loss_value.
  destruct (Z.ltb_spec k 0) as [Hneg|_]; [lia|].
  unfold matmul_values.
  change (nrows (directions (ncols a) (Z.to_nat k) g)) with (ncols a).
  change (ncols (directions (ncols a) (Z.to_nat k) g)) with (Z.to_nat k).
  rewrite <- Hd, Nat.eqb_refl. unfold sub_values, sort_values. simpl nrows. simpl ncols.
  rewrite broadcast_dim_refl.
  destruct (broadcast_dim (nrows a) (nrows b)); [eexists|]; reflexivity.
Qed.

Lemma unit_direction_entry : get (directions 1 1 (fun _ => 1)) 0 0 = 1.
Proof.
  pose proof (column_directions_1d 1 (fun _ => 1) 0 ltac:(lia)) as H.
  unfold column in H. simpl in H. injection H as H.
  rewrite H, Rabs_R1, Rmax_left by (unfold eps; lra). field.
Qed.

(** C5, as stated, fails for batch sizes 1 and 2: the one projected row [4] is
    broadcast against the sorted rows [2] and [5], and the call returns the
    score ((4 - 2)^2 + (4 - 5)^2) / 2 = 5/2 instead of raising. *)
Lemma C5_counterexample_broadcast :
  nrows single = 1%nat /\ nrows sample_b = 2%nat
  /\ ncols single = ncols sample_b
  /\ fst (sw_loss 1 2 1 uneven_store) = inr (Fin (5 / 2)).
Proof.
  split; [reflexivity|]. split; [reflexivity|]. split; [reflexivity|].
  destruct (sw_loss_run 1 2 single sample_b 1 uneven_store eq_refl eq_refl)
    as (s' & Hrun & _).
  rewrite Hrun. simpl fst. simpl generator.
  unfold sw_loss_value. simpl Z.ltb. cbv iota.
  change (Z.to_nat 1) with 1%nat. change (ncols single) with 1%nat.
  pose proof unit_direction_entry as Ht.
  set (theta := directions 1 1 (fun _ => 1)) in *.
  assert (Hr : nrows theta = 1%nat) by reflexivity.
  assert (Hc : ncols theta = 1%nat) by reflexivity.
  clearbody theta.
  unfold matmul_values. rewrite Hr, Hc. simpl.
  unfold sub_values, sort_values. simpl. unfold get. simpl.
  unfold get in Ht. rewrite Ht.
  destruct (Rle_dec (2 * 1 + 0) (5 * 1 + 0)) as [_|Hn]; [|exfalso; apply Hn; lra].
  unfold mean_values, pow2_values. simpl. unfold get. simpl.
  do 2 f_equal. field.
Qed.

Lemma mean_values_tabulate (r p : nat) (F : nat -> nat -> R) :
  mean_values (tabulate r p F)
  = mean_list (concat (map (fun j => map (fun i => F i j) (seq 0 r)) (seq 0 p))).
Proof.
  rewrite mean_list_length.
  assert (Hlen : length (concat (map (fun j => map (fun i => F i j) (seq 0 r))
                                     (seq 0 p))) = (p * r)%nat).
  { rewrite (length_concat_const _ r).
    - rewrite length_map, length_seq. reflexivity.
    - apply List.Forall_forall. intros l Hl. apply in_map_iff in Hl.
      destruct Hl as [j [<- _]]. rewrite length_map, length_seq. reflexivity. }
  rewrite Hlen. unfold mean_values, numel. simpl nrows. simpl ncols.
  rewrite (Nat.mul_comm p r).
  destruct (Nat.eqb_spec (r * p) 0); [reflexivity|].
  do 2 f_equal. rewrite sum_entries_tabulate, sum_list_concat, map_map. reflexivity.
Qed.

Lemma bidx_bound (n m r i : nat) :
  broadcast_dim n m = Some r -> (i < r)%nat ->
  (bidx n i < n)%nat /\ (bidx m i < m)%nat.
Proof.
  unfold broadcast_dim, bidx. intros H Hi.
  destruct (Nat.eqb_spec n m) as [E|Hnm];
    destruct (Nat.eqb_spec n 1) as [E1|Hn1];
    destruct (Nat.eqb_spec m 1) as [E2|Hm1];
    try discriminate H; injection H as H; lia.
Qed.

(** The value of the call when the batch sizes broadcast to [r]: the mean
    over the (r, p) tensor of squared differences, where a batch of one row
    is read at row 0 throughout. *)
Lemma sw_loss_value_tabulated (g : Generator) (a b : Tensor) (k : Z) (r : nat) :
  ncols a = ncols b -> (0 <= k)%Z ->
  broadcast_dim (nrows a) (nrows b) = Some r ->
  let p := Z.to_nat k in
  let theta := directions (ncols a) p g in
  let proj t j :=
    map (fun i => sum_list (map (fun c => get t i c * get theta c j)
                                (seq 0 (ncols a))))
        (seq 0 (nrows t)) in
  sw_loss_value g a b k
  = inr (mean_values
           (tabulate r p (fun i j =>
              (nth (bidx (nrows a) i) (sort_list (proj a j)) 0
               - nth (bidx (nrows b) i) (sort_list (proj b j)) 0) ^ 2))).
Proof.
  intros Hd Hk Hr p theta proj. unfold sw_loss_value.
  destruct (Z.ltb_spec k 0) as [Hneg|_]; [lia|].
  fold p. fold theta. unfold matmul_values.
  change (nrows theta) with (ncols a). change (ncols theta) with p.
  rewrite <- Hd, Nat.eqb_refl. unfold sub_values, sort_values.
  simpl nrows. simpl ncols. rewrite Hr, broadcast_dim_refl.
  unfold pow2_values. simpl nrows. simpl ncols.
  do 2 f_equal. apply tabulate_ext. intros i j Hi Hj.
  destruct (bidx_bound _ _ _ _ Hr Hi) as [Hia Hib].
  rewrite get_tabulate by assumption.
  rewrite (bidx_lt p j) by exact Hj.
  rewrite !get_tabulate by assumption.
  rewrite !column_tabulate by exact Hj. reflexivity.
Qed.

Lemma length_broadcast_entries (x : list R) (b theta : Tensor) :
  length (broadcast_entries x b theta) = (ncols theta * length (rows b))%nat.
Proof.
  unfold broadcast_entries. rewrite (length_concat_const _ (length (rows b))).
  - rewrite length_map, length_seq. reflexivity.
  - apply List.Forall_forall. intros l Hl. apply in_map_iff in Hl.
    destruct Hl as [j [<- _]].
    rewrite length_map, length_sort_list, length_project. reflexivity.
Qed.

(** A first batch of one row against [m <> 1] rows. *)
Lemma sw_loss_value_single_left (g : Generator) (a b : Tensor) (k : Z)
    (x : list R) (m d : nat) :
  has_shape a 1 d -> rows a = [x] -> has_shape b m d -> m <> 1%nat ->
  (0 <= k)%Z ->
  sw_loss_value g a b k
  = inr (mean_list (broadcast_entries x b (directions d (Z.to_nat k) g))).
Proof.
  intros Ha Hx Hb Hm Hk.
  pose proof Ha as (Han & Had & _). pose proof Hb as (Hbn & Hbd & Hbl & _).
  assert (Hr : broadcast_dim (nrows a) (nrows b) = Some m).
  { rewrite Han, Hbn. unfold broadcast_dim.
    destruct (Nat.eqb_spec 1 m); [congruence | reflexivity]. }
  rewrite (sw_loss_value_tabulated g a b k m) by (try assumption; congruence).
  rewrite Had, Han, Hbn. set (p := Z.to_nat k). set (theta := directions d p g).
  f_equal. rewrite mean_values_tabulate. f_equal. unfold broadcast_entries.
  change (ncols theta) with p. f_equal.
  apply map_ext_in. intros j Hj. apply in_seq in Hj.
  rewrite (matmul_column a theta 1 d j), (matmul_column b theta m d j)
    by (try assumption; try reflexivity; change (ncols theta) with p; lia).
  rewrite Hx. simpl project. simpl sort_list.
  set (sb := sort_list (project (rows b) (column theta j))).
  assert (Hsb : length sb = m)
    by (unfold sb; rewrite length_sort_list, length_project; exact Hbl).
  assert (E : sb = map (fun i => nth i sb 0) (seq 0 m))
    by (rewrite <- Hsb; apply list_as_map_seq).
  rewrite E at 1. rewrite map_map.
  apply map_ext_in. intros i Hi. apply in_seq in Hi.
  rewrite (bidx_lt m i) by lia. reflexivity.
Qed.

(** The same with the single row in the second batch. *)
Lemma sw_loss_value_single_right (g : Generator) (a b : Tensor) (k : Z)
    (y : list R) (n d : nat) :
  has_shape b 1 d -> rows b = [y] -> has_shape a n d -> n <> 1%nat ->
  (0 <= k)%Z ->
  sw_loss_value g a b k
  = inr (mean_list (broadcast_entries y a (directions d (Z.to_nat k) g))).
Proof.
  intros Hb Hy Ha Hn Hk.
  pose proof Ha as (Han & Had & Hal & _). pose proof Hb as (Hbn & Hbd & _).
  assert (Hr : broadcast_dim (nrows a) (nrows b) = Some n).
  { rewrite Han, Hbn. unfold broadcast_dim.
    destruct (Nat.eqb_spec n 1); [congruence | reflexivity]. }
  rewrite (sw_loss_value_tabulated g a b k n) by (try assumption; congruence).
  rewrite Had, Han, Hbn. set (p := Z.to_nat k). set (theta := directions d p g).
  f_equal. rewrite mean_values_tabulate. f_equal. unfold broadcast_entries.
  change (ncols theta) with p. f_equal.
  apply map_ext_in. intros j Hj. apply in_seq in Hj.
  rewrite (matmul_column a theta n d j), (matmul_column b theta 1 d j)
    by (try assumption; try reflexivity; change (ncols theta) with p; lia).
  rewrite Hy. simpl project. simpl sort_list.
  set (sa := sort_list (project (rows a) (column theta j))).
  assert (Hsa : length sa = n)
    by (unfold sa; rewrite length_sort_list, length_project; exact Hal).
  assert (E : sa = map (fun i => nth i sa 0) (seq 0 n))
    by (rewrite <- Hsa; apply list_as_map_seq).
  rewrite E at 1. rewrite map_map.
  apply map_ext_in. intros i Hi. apply in_seq in Hi.
  rewrite (bidx_lt n i) by lia. simpl. ring.
Qed.

(** C5 (amended): with equal feature dimensions, batch sizes n <> m and a
    number of directions P >= 0, the subtraction of the sorted projections
    raises a shape error when neither n nor m is 1.  When one batch has a
    single row, that row is broadcast along the batch dimension: the call
    returns the mean, over the P times m (or n) entries, of the squared
    differences between the projection of the single row and each sorted
    projection of the other batch, direction by direction. *)
Theorem C5_sw_loss_batch_size_mismatch
    (la lb : positive) (a b : Tensor) (k : Z) (s : State) :
  heap s !! la = Some a -> heap s !! lb = Some b ->
  ncols a = ncols b -> nrows a <> nrows b -> (0 <= k)%Z ->
  let p := Z.to_nat k in
  let theta := directions (ncols a) p (generator s) in
  (nrows a <> 1%nat -> nrows b <> 1%nat ->
   fst (sw_loss la lb k s)
   = inl (BroadcastMismatch (nrows a, p) (nrows b, p)))
  /\ (nrows a = 1%nat \/ nrows b = 1%nat ->
      exists score, fst (sw_loss la lb k s) = inr score)
  /\ (forall x,
        has_shape a 1 (ncols a) -> rows a = [x] ->
        has_shape b (nrows b) (ncols b) ->
        fst (sw_loss la lb k s) = inr (mean_list (broadcast_entries x b theta))
        /\ length (broadcast_entries x b theta) = (p * nrows b)%nat)
  /\ (forall y,
        has_shape b 1 (ncols b) -> rows b = [y] ->
        has_shape a (nrows a) (ncols a) ->
        fst (sw_loss la lb k s) = inr (mean_list (broadcast_entries y a theta))
        /\ length (broadcast_entries y a theta) = (p * nrows a)%nat).
Proof.
  intros Hla Hlb Hd Hnm Hk p theta.
  destruct (sw_loss_run la lb a b k s Hla Hlb) as (s' & Hrun & _).
  rewrite Hrun. simpl fst.
  pose proof (sw_loss_value_batch_sizes (generator s) a b k Hd Hk) as H.
  unfold broadcast_dim in H.
  destruct (Nat.eqb_spec (nrows a) (nrows b)) as [E|_]; [contradiction|].
  split; [|split; [|split]].
  - intros Ha1 Hb1.
    destruct (Nat.eqb_spec (nrows a) 1) as [Ea|_]; [contradiction|].
    destruct (Nat.eqb_spec (nrows b) 1) as [Eb|_]; [contradiction|]. exact H.
  - intros Hor.
    destruct (Nat.eqb_spec (nrows a) 1) as [Ea|Ea]; [exact H|].
    destruct (Nat.eqb_spec (nrows b) 1) as [Eb|Eb]; [exact H|].
    destruct Hor; contradiction.
  - intros x Ha Hx Hb. split.
    + apply (sw_loss_value_single_left _ a b k x (nrows b) (ncols a));
        try assumption.
      * rewrite Hd. exact Hb.
      * destruct Ha as (Ha1 & _). congruence.
    + rewrite length_broadcast_entries. destruct Hb as (_ & _ & -> & _).
      reflexivity.
  - intros y Hb Hy Ha. split.
    + apply (sw_loss_value_single_right _ a b k y (nrows a) (ncols a));
        try assumption.
      * rewrite Hd. exact Hb.
      * destruct Hb as (Hb1 & _). congruence.
    + rewrite length_broadcast_entries. destruct Ha as (_ & _ & -> & _).
      reflexivity.
Qed.

Lemma has_shape_single : has_shape single 1 1.
Proof. unfold has_shape. simpl. repeat split. repeat constructor. Qed.

(** C5 on batch sizes 3 and 2, which raise, and on batch sizes 1 and 2, where
    the row [4] is broadcast. *)
Lemma C5_witness :
  fst (sw_loss 3 2 100 uneven_store)
  = inl (BroadcastMismatch (3%nat, Z.to_nat 100) (2%nat, Z.to_nat 100))
  /\ fst (sw_loss 1 2 3 uneven_store)
     = inr (mean_list (broadcast_entries [4] sample_b
                         (directions 1 (Z.to_nat 3) (generator uneven_store))))
  /\ length (broadcast_entries [4] sample_b
               (directions 1 (Z.to_nat 3) (generator uneven_store)))
     = (Z.to_nat 3 * 2)%nat.
Proof.
  split.
  - apply (proj1 (C5_sw_loss_batch_size_mismatch 3 2 triple sample_b 100
                    uneven_store eq_refl eq_refl eq_refl
                    ltac:(simpl; lia) ltac:(lia)));
      simpl; lia.
  - apply (proj1 (proj2 (proj2
             (C5_sw_loss_batch_size_mismatch 1 2 single sample_b 3 uneven_store
                eq_refl eq_refl eq_refl ltac:(simpl; lia) ltac:(lia)))) [4]).
    + exact has_shape_single.
    + reflexivity.
    + exact has_shape_sample_b.
Defined.

(* ================================================================= *)
(** ** The wrapper and the store *)

(** C8: [SWDLoss(num_projections=k).forward(a, b)] is [sw_loss(a, b, k)] on
    the same store and generator: the same result and the same final state.
    The object holds [num_projections] and nothing else, and [forward] does
    not change it. *)
Theorem C8_forward_is_sw_loss (k : Z) (la lb : positive) (s : State) :
  forward (SWDLoss_init k) la lb s = sw_loss la lb k s
  /\ num_projections (SWDLoss_init k) = k
  /\ (forall self : SWDLoss, self = SWDLoss_init (num_projections self)).
Proof.
  split; [reflexivity|]. split; [reflexivity|].
  intros [kk]. reflexivity.
Qed.

(** C10: a call of [sw_loss] leaves both arguments, and every other tensor of
    the store, with the values they had, whether it returns or raises. *)
Theorem C10_sw_loss_keeps_its_arguments
    (la lb : positive) (a b : Tensor) (k : Z) (s : State) :
  heap s !! la = Some a -> heap s !! lb = Some b ->
  let s' := snd (sw_loss la lb k s) in
  heap s' !! la = Some a /\ heap s' !! lb = Some b
  /\ (forall l t, heap s !! l = Some t -> heap s' !! l = Some t).
Proof.
  intros Hla Hlb s'.
  destruct (sw_loss_run la lb a b k s Hla Hlb) as (s1 & Hrun & Hext).
  unfold s'. rewrite Hrun. simpl snd.
  split; [|split].
  - exact (extends_lookup _ _ _ _ Hext Hla).
  - exact (extends_lookup _ _ _ _ Hext Hlb).
  - intros l t. apply extends_lookup, Hext.
Qed.

(** C10 on the sample store. *)
Lemma C10_witness :
  let s' := snd (sw_loss 1 2 3 sample_store) in
  heap s' !! 1%positive = Some sample_a /\ heap s' !! 2%positive = Some sample_b
  /\ (forall l t, heap sample_store !! l = Some t -> heap s' !! l = Some t).
Proof.
  apply (C10_sw_loss_keeps_its_arguments 1 2 sample_a sample_b 3 sample_store).
  - reflexivity.
  - reflexivity.
Defined.

(* ================================================================= *)
(** ** [plot_loss] *)

Lemma as_numbers_floats (ys : list R) : as_numbers (map PyFloat ys) = Some ys.
Proof.
  induction ys as [|y ys IH]; simpl; [reflexivity|]. rewrite IH. reflexivity.
Qed.

(** C9: on a history file that parses to an object with the lists of floats
    [train_loss] and [valid_loss], [plot_loss] draws two lines, these two
    lists in full, each against its indices 0, 1, 2, ...; a missing file
    raises [FileNotFoundError] and a text that does not parse raises
    [JSONDecodeError], and the exception is the outcome of the call. *)
Theorem C9_plot_loss_reads_and_plots
    (json_loads : string -> option pyval) (fs : gmap string string)
    (path : string) (filename : option string) :
  (forall contents d train valid,
      fs !! path = Some contents ->
      json_loads contents = Some (PyDict d) ->
      d !! "train_loss" = Some (PyList (map PyFloat train)) ->
      d !! "valid_loss" = Some (PyList (map PyFloat valid)) ->
      exists r,
        plot_loss json_loads fs path filename = inr r
        /\ map (fun l => (xdata l, ydata l)) (lines (figure r))
           = [(map INR (seq 0 (length train)), train);
              (map INR (seq 0 (length valid)), valid)])
  /\ (fs !! path = None ->
      plot_loss json_loads fs path filename = inl (FileNotFoundError path))
  /\ (forall contents,
        fs !! path = Some contents -> json_loads contents = None ->
        plot_loss json_loads fs path filename = inl JSONDecodeError).
Proof.
  split; [|split].
  - intros contents d train valid Hfile Hparse Htrain Hvalid.
    unfold plot_loss. rewrite Hfile, Hparse. unfold subscript.
    rewrite Htrain, Hvalid. unfold plt_plot at 2.
    rewrite as_numbers_floats. unfold plt_plot. simpl lines.
    rewrite as_numbers_floats. eexists. split; reflexivity.
  - intros Hfile. unfold plot_loss. rewrite Hfile. reflexivity.
  - intros contents Hfile Hparse. unfold plot_loss. rewrite Hfile, Hparse. reflexivity.
Qed.

(** C9 on the history file of the example, a missing file and a text that
    does not parse. *)
Lemma C9_witness :
  (exists r,
      plot_loss sample_loads sample_files "history.json" None = inr r
      /\ map (fun l => (xdata l, ydata l)) (lines (figure r))
         = [(map INR (seq 0 3), [1; 0.5; 0.25]);
            (map INR (seq 0 3), [1.2; 0.6; 0.3])])
  /\ plot_loss sample_loads sample_files "missing.json" None
     = inl (FileNotFoundError "missing.json")
  /\ plot_loss sample_loads sample_files "broken.json" None = inl JSONDecodeError.
Proof.
  split; [|split].
  - apply (proj1 (C9_plot_loss_reads_and_plots sample_loads sample_files
                    "history.json" None) history_text history_dict
                 [1; 0.5; 0.25] [1.2; 0.6; 0.3]); reflexivity.
  - apply (proj1 (proj2 (C9_plot_loss_reads_and_plots sample_loads sample_files
                           "missing.json" None))). reflexivity.
  - apply (proj2 (proj2 (C9_plot_loss_reads_and_plots sample_loads sample_files
                           "broken.json" None)) "{"); reflexivity.
Defined.

(* ================================================================= *)
(** ** More on [sw_loss]: symmetry and the order of the samples *)

Lemma squared_differences_sym (u v : list R) :
  squared_differences u v = squared_differences v u.
Proof.
  unfold squared_differences. revert v.
  induction u as [|x u IH]; intros [|y v]; simpl; try reflexivity.
  rewrite IH. f_equal. ring.
Qed.

Lemma sliced_entries_sym (a b theta : Tensor) :
  sliced_entries a b theta = sliced_entries b a theta.
Proof.
  unfold sliced_entries. f_equal. apply map_ext. intros j.
  apply squared_differences_sym.
Qed.

Lemma sort_list_permutation (l l' : list R) :
  Permutation l l' -> sort_list l = sort_list l'.
Proof.
  intros H. apply sort_list_unique; [apply sort_list_sorted|].
  eapply perm_trans; [exact H | apply sort_list_perm].
Qed.

Lemma sliced_entries_permutation (a b a' b' theta : Tensor) :
  Permutation (rows a) (rows a') -> Permutation (rows b) (rows b') ->
  sliced_entries a b theta = sliced_entries a' b' theta.
Proof.
  intros Ha Hb. unfold sliced_entries. f_equal. apply map_ext. intros j.
  unfold project.
  rewrite (sort_list_permutation _ _ (Permutation_map _ Ha)).
  rewrite (sort_list_permutation _ _ (Permutation_map _ Hb)).
  reflexivity.
Qed.

Lemma sw_loss_value_negative (g : Generator) (a b : Tensor) (k : Z) :
  (k < 0)%Z -> sw_loss_value g a b k = inl (NegativeDimension k).
Proof.
  intros Hk. unfold sw_loss_value.
  destruct (Z.ltb_spec k 0) as [_|H]; [reflexivity | lia].
Qed.

(** Exchanging the two batches does not change the outcome of the call. *)
Theorem sw_loss_symmetric
    (la lb : positive) (a b : Tensor) (n d : nat) (k : Z) (s : State) :
  heap s !! la = Some a -> heap s !! lb = Some b ->
  has_shape a n d -> has_shape b n d ->
  fst (sw_loss la lb k s) = fst (sw_loss lb la k s).
Proof.
  intros Hla Hlb Ha Hb.
  destruct (sw_loss_run la lb a b k s Hla Hlb) as (s1 & -> & _).
  destruct (sw_loss_run lb la b a k s Hlb Hla) as (s2 & -> & _).
  simpl fst. destruct (Z.lt_ge_cases k 0) as [Hk|Hk].
  - rewrite !sw_loss_value_negative by exact Hk. reflexivity.
  - rewrite (sw_loss_value_sliced _ a b k n d), (sw_loss_value_sliced _ b a k n d)
      by assumption.
    unfold sliced_distance. rewrite sliced_entries_sym. reflexivity.
Qed.

(** [sw_loss_symmetric] on the sample store. *)
Lemma sw_loss_symmetric_witness :
  fst (sw_loss 1 2 3 sample_store) = fst (sw_loss 2 1 3 sample_store).
Proof.
  apply (sw_loss_symmetric 1 2 sample_a sample_b 2 1 3 sample_store).
  - reflexivity.
  - reflexivity.
  - exact has_shape_sample_a.
  - exact has_shape_sample_b.
Defined.


Lemma has_shape_sample_a_swapped : has_shape sample_a_swapped 2 1.
Proof. unfold has_shape. simpl. repeat split. repeat constructor. Qed.


(** When one batch holds the rows of the other in another order, and is not
    empty, the score is exactly 0 for every P >= 1 and every state of the
    generator. *)
Theorem sw_loss_permuted_copy
    (la lb : positive) (a b : Tensor) (n d : nat) (k : Z) (s : State) :
  heap s !! la = Some a -> heap s !! lb = Some b ->
  has_shape a n d -> has_shape b n d -> Permutation (rows a) (rows b) ->
  (1 <= n)%nat -> (1 <= k)%Z ->
  fst (sw_loss la lb k s) = inr (Fin 0).
Proof.
  intros Hla Hlb Ha Hb Hp Hn Hk.
  destruct (sw_loss_run la lb a b k s Hla Hlb) as (s1 & -> & _). simpl fst.
  destruct (sw_loss_value_fin (generator s) a b k n d Ha Hb Hn Hk) as [-> _].
  do 2 f_equal.
  rewrite (sliced_entries_permutation a b a a)
    by (try apply Permutation_refl; apply Permutation_sym; exact Hp).
  rewrite (sum_list_zero _ (sliced_entries_same a _)).
  unfold Rdiv. apply Rmult_0_l.
Qed.

(** [sw_loss_permuted_copy] on [[3]; [1]] and [[1]; [3]]. *)
Lemma sw_loss_permuted_copy_witness :
  fst (sw_loss 1 3 3 permuted_store) = inr (Fin 0).
Proof.
  apply (sw_loss_permuted_copy 1 3 sample_a sample_a_swapped 2 1 3 permuted_store).
  - reflexivity.
  - reflexivity.
  - exact has_shape_sample_a.
  - exact has_shape_sample_a_swapped.
  - apply perm_swap.
  - lia.
  - lia.
Defined.

(* ================================================================= *)
(** ** More on [sw_loss]: the number of directions *)

(** A negative number of directions raises before anything is drawn or
    allocated: the store and the generator are as they were. *)
Theorem sw_loss_negative_num_projections
    (la lb : positive) (a : Tensor) (k : Z) (s : State) :
  heap s !! la = Some a -> (k < 0)%Z ->
  sw_loss la lb k s = (inl (NegativeDimension k), s).
Proof.
  intros Ha Hk. unfold sw_loss, shape.
  rewrite (bind_ok _ _ _ _ _ (bind_ok _ _ _ _ _ (deref_ok _ _ _ Ha))). simpl snd.
  apply bind_raise. unfold torch_randn.
  destruct (Z.ltb_spec k 0) as [_|H]; [reflexivity | lia].
Qed.

(** [sw_loss_negative_num_projections] with -1 direction. *)
Lemma sw_loss_negative_num_projections_witness :
  sw_loss 1 2 (-1) sample_store = (inl (NegativeDimension (-1)), sample_store).
Proof.
  apply (sw_loss_negative_num_projections 1 2 sample_a (-1) sample_store).
  - reflexivity.
  - lia.
Defined.

(** With [num_projections = 0] the call does not raise: on batches of one
    shape it returns nan, the mean of a tensor of shape (n, 0). *)
Theorem sw_loss_zero_num_projections
    (la lb : positive) (a b : Tensor) (n d : nat) (s : State) :
  heap s !! la = Some a -> heap s !! lb = Some b ->
  has_shape a n d -> has_shape b n d ->
  fst (sw_loss la lb 0 s) = inr NaN.
Proof.
  intros Hla Hlb Ha Hb.
  destruct (sw_loss_run la lb a b 0 s Hla Hlb) as (s1 & -> & _). simpl fst.
  rewrite (sw_loss_value_sliced _ a b 0 n d) by (try assumption; lia).
  unfold sliced_distance. rewrite mean_list_length, length_sliced_entries.
  - reflexivity.
  - destruct Ha as (_ & _ & -> & _), Hb as (_ & _ & -> & _). reflexivity.
Qed.

(** [sw_loss_zero_num_projections] on the sample store. *)
Lemma sw_loss_zero_num_projections_witness :
  fst (sw_loss 1 2 0 sample_store) = inr NaN.
Proof.
  apply (sw_loss_zero_num_projections 1 2 sample_a sample_b 2 1 sample_store).
  - reflexivity.
  - reflexivity.
  - exact has_shape_sample_a.
  - exact has_shape_sample_b.
Defined.

(* ================================================================= *)
(** ** More on [plot_loss] *)

Lemma subscript_inr (v x : pyval) (key : string) :
  subscript v key = inr x -> exists d, v = PyDict d /\ d !! key = Some x.
Proof.
  unfold subscript. intros H.
  destruct v as [| | | | | |d]; try discriminate H.
  destruct (d !! key) as [y|] eqn:E; [|discriminate H].
  injection H as <-. exists d. auto.
Qed.

(** When the file exists and parses to an object whose [train_loss] and
    [valid_loss] are lists of numbers (integers or floats, of any two
    lengths), [plot_loss] returns, and what it shows is the figure with the
    two lines against their indices, labels "Train Loss" and "Valid Loss",
    the axis labels, the title, the legend and the grid; the figure is saved
    under [filename] when [filename] is a non-empty string, and not at all
    otherwise.  Conversely [plot_loss] returns only if the file exists and
    parses to an object that has both keys. *)
Theorem plot_loss_returns
    (json_loads : string -> option pyval) (fs : gmap string string)
    (path : string) (filename : option string) :
  (forall contents d train valid ys_train ys_valid,
     fs !! path = Some contents ->
     json_loads contents = Some (PyDict d) ->
     d !! "train_loss" = Some (PyList train) ->
     d !! "valid_loss" = Some (PyList valid) ->
     as_numbers train = Some ys_train ->
     as_numbers valid = Some ys_valid ->
     plot_loss json_loads fs path filename
     = inr (mkRendering (loss_figure ys_train ys_valid)
              (match filename with
               | Some name => if String.eqb name "" then None else Some name
               | None => None
               end)))
  /\ (forall r,
        plot_loss json_loads fs path filename = inr r ->
        exists contents d train_loss valid_loss,
          fs !! path = Some contents
          /\ json_loads contents = Some (PyDict d)
          /\ d !! "train_loss" = Some train_loss
          /\ d !! "valid_loss" = Some valid_loss).
Proof.
  split.
  - intros contents d train valid ys_train ys_valid Hfile Hparse Ht Hv Hn1 Hn2.
    unfold plot_loss. rewrite Hfile, Hparse. unfold subscript. rewrite Ht, Hv.
    unfold plt_plot at 1. rewrite Hn1. unfold plt_plot. rewrite Hn2.
    unfold loss_figure. destruct filename as [name|]; [|reflexivity].
    simpl. destruct (String.eqb name ""); reflexivity.
  - unfold plot_loss. intros r H.
    destruct (fs !! path) as [contents|] eqn:Hfile; [|discriminate H].
    destruct (json_loads contents) as [history|] eqn:Hparse; [|discriminate H].
    destruct (subscript history "train_loss") as [e|train_loss] eqn:Ht;
      [discriminate H|].
    destruct (subscript history "valid_loss") as [e|valid_loss] eqn:Hv;
      [discriminate H|].
    apply subscript_inr in Ht. destruct Ht as (d & -> & Ht).
    apply subscript_inr in Hv. destruct Hv as (d' & Hd & Hv).
    injection Hd as <-.
    exists contents, d, train_loss, valid_loss. auto.
Qed.

(** [plot_loss_returns] on a history of integers and floats, of lengths 2 and
    3, saved under "loss.png". *)
Lemma plot_loss_returns_witness :
  plot_loss keyed_loads keyed_files "ints.json" (Some "loss.png")
  = inr (mkRendering (loss_figure [3; 1] [2; 0.5; 0]) (Some "loss.png")).
Proof.
  apply (proj1 (plot_loss_returns keyed_loads keyed_files "ints.json"
                  (Some "loss.png"))
           "ints" ints_dict [PyInt 3; PyInt 1] [PyInt 2; PyFloat 0.5; PyInt 0]
           [3; 1] [2; 0.5; 0]); reflexivity.
Defined.

(** A history that is an object without [train_loss] raises
    [KeyError "train_loss"]; with [train_loss], whatever it holds, and
    without [valid_loss] it raises [KeyError "valid_loss"]: both keys are
    read before anything is plotted.  A history that is no object (a list, a
    number, a string, null) raises [TypeError]. *)
Theorem plot_loss_missing_key
    (json_loads : string -> option pyval) (fs : gmap string string)
    (path : string) (filename : option string)
    (contents : string) (history : pyval) :
  fs !! path = Some contents -> json_loads contents = Some history ->
  (forall d, history = PyDict d -> d !! "train_loss" = None ->
     plot_loss json_loads fs path filename = inl (KeyError "train_loss"))
  /\ (forall d v, history = PyDict d -> d !! "train_loss" = Some v ->
        d !! "valid_loss" = None ->
        plot_loss json_loads fs path filename = inl (KeyError "valid_loss"))
  /\ ((forall d, history <> PyDict d) ->
      plot_loss json_loads fs path filename = inl TypeError).
Proof.
  intros Hfile Hparse. unfold plot_loss. rewrite Hfile, Hparse.
  split; [|split].
  - intros d -> Ht. simpl. rewrite Ht. reflexivity.
  - intros d v -> Ht Hv. simpl. rewrite Ht, Hv. reflexivity.
  - intros Hnd. destruct history as [| | | | | |d]; try reflexivity.
    exfalso. apply (Hnd d). reflexivity.
Qed.

(** [plot_loss_missing_key] on an empty object, on an object with
    [train_loss] alone, and on a list. *)
Lemma plot_loss_missing_key_witness :
  plot_loss keyed_loads keyed_files "empty.json" None = inl (KeyError "train_loss")
  /\ plot_loss keyed_loads keyed_files "train_only.json" None
     = inl (KeyError "valid_loss")
  /\ plot_loss keyed_loads keyed_files "list.json" None = inl TypeError.
Proof.
  split; [|split].
  - apply (proj1 (plot_loss_missing_key keyed_loads keyed_files "empty.json" None
                    "empty object" (PyDict ∅) eq_refl eq_refl) ∅); reflexivity.
  - apply (proj1 (proj2 (plot_loss_missing_key keyed_loads keyed_files
                           "train_only.json" None "train only"
                           (PyDict train_only_dict) eq_refl eq_refl))
             train_only_dict (PyStr "n/a")); reflexivity.
  - apply (proj2 (proj2 (plot_loss_missing_key keyed_loads keyed_files
                           "list.json" None "a list" (PyList []) eq_refl eq_refl))).
    intros d H. discriminate H.
Defined.

(* ================================================================= *)
(** ** [plot_distributions] *)

Lemma take_column_converted (x : array_like) (j : nat) :
  take_column (if is_tensor x then cpu_detach_numpy x else x) j
  = if (j <? ncols (entries x))%nat then inr (column (entries x) j)
    else inl (IndexError j (ncols (entries x))).
Proof. destruct x; reflexivity. Qed.

Lemma take_column_in_range (x : array_like) (j : nat) :
  (j < ncols (entries x))%nat ->
  take_column (if is_tensor x then cpu_detach_numpy x else x) j
  = inr (column (entries x) j).
Proof.
  intros H. rewrite take_column_converted.
  destruct (Nat.ltb_spec j (ncols (entries x))); [reflexivity | lia].
Qed.

(** The first index refused in an array with fewer than two columns is its
    number of columns. *)
Lemma take_column_too_few (x : array_like) :
  (ncols (entries x) < 2)%nat ->
  and_then (take_column (if is_tensor x then cpu_detach_numpy x else x) 0)
    (fun _ => take_column (if is_tensor x then cpu_detach_numpy x else x) 1)
  = inl (IndexError (ncols (entries x)) (ncols (entries x))).
Proof.
  intros H. rewrite !take_column_converted.
  destruct (ncols (entries x)) as [|[|c]]; [reflexivity | reflexivity | lia].
Qed.

Lemma plot_distributions_ok (source generated target : array_like)
    (title : string) (filename : option string) :
  (2 <= ncols (entries source))%nat -> (2 <= ncols (entries generated))%nat ->
  (2 <= ncols (entries target))%nat ->
  plot_distributions source generated target title filename
  = inr (mkShown
           (mkPanels (12, 6)
              [plain_panel (entries source) "Source Distribution";
               plain_panel (entries generated) "Generated Distribution";
               plain_panel (entries target) "Target Distribution";
               overlay_panel (entries generated) (entries target)]
              title)
           (if truthy filename then filename else None)).
Proof.
  intros Hs Hg Ht. unfold plot_distributions.
  rewrite !take_column_in_range by lia. reflexivity.
Qed.

(** On three arrays with at least two columns each, tensors or numpy arrays
    alike, [plot_distributions] shows exactly four panels: the source, the
    generated and the target points, each by its first two coordinates, and
    a last panel with the generated points, then the target points, and a
    legend.  The figure is saved under [filename] when it is a non-empty
    string. *)
Theorem plot_distributions_four_panels (source generated target : array_like)
    (title : string) (filename : option string) :
  (2 <= ncols (entries source))%nat -> (2 <= ncols (entries generated))%nat ->
  (2 <= ncols (entries target))%nat ->
  exists fig,
    plot_distributions source generated target title filename
    = inr (mkShown fig
             (match filename with
              | Some name => if String.eqb name "" then None else Some name
              | None => None
              end))
    /\ axes fig
       = [plain_panel (entries source) "Source Distribution";
          plain_panel (entries generated) "Generated Distribution";
          plain_panel (entries target) "Target Distribution";
          overlay_panel (entries generated) (entries target)]
    /\ suptitle fig = title
    /\ Forall (fun ax => Forall (fun sc => length (sc_x sc) = length (sc_y sc))
                           (scatters ax)) (axes fig).
Proof.
  intros Hs Hg Ht. eexists. split; [|split; [|split]].
  - rewrite plot_distributions_ok by assumption. f_equal. f_equal.
    destruct filename as [name|]; [|reflexivity].
    simpl. destruct (String.eqb name ""); reflexivity.
  - reflexivity.
  - reflexivity.
  - simpl. repeat constructor; simpl; rewrite !length_column; reflexivity.
Qed.

(** [plot_distributions_four_panels] on a tensor and two numpy arrays. *)
Lemma plot_distributions_four_panels_witness :
  exists fig,
    plot_distributions (TorchTensor plane) (NumpyArray space) (NumpyArray plane)
      "Comparison" (Some "out.png")
    = inr (mkShown fig (Some "out.png"))
    /\ axes fig
       = [plain_panel plane "Source Distribution";
          plain_panel space "Generated Distribution";
          plain_panel plane "Target Distribution";
          overlay_panel space plane]
    /\ suptitle fig = "Comparison"
    /\ Forall (fun ax => Forall (fun sc => length (sc_x sc) = length (sc_y sc))
                           (scatters ax)) (axes fig).
Proof.
  apply (plot_distributions_four_panels (TorchTensor plane) (NumpyArray space)
           (NumpyArray plane) "Comparison" (Some "out.png")); simpl; lia.
Defined.

(** An array with fewer than two columns raises [IndexError], and the first
    such array among source, generated, target decides: the index refused is
    the number of columns of that array. *)
Theorem plot_distributions_too_few_columns (source generated target : array_like)
    (title : string) (filename : option string) :
  ((ncols (entries source) < 2)%nat ->
   plot_distributions source generated target title filename
   = inl (IndexError (ncols (entries source)) (ncols (entries source))))
  /\ ((2 <= ncols (entries source))%nat -> (ncols (entries generated) < 2)%nat ->
      plot_distributions source generated target title filename
      = inl (IndexError (ncols (entries generated)) (ncols (entries generated))))
  /\ ((2 <= ncols (entries source))%nat -> (2 <= ncols (entries generated))%nat ->
      (ncols (entries target) < 2)%nat ->
      plot_distributions source generated target title filename
      = inl (IndexError (ncols (entries target)) (ncols (entries target)))).
Proof.
  split; [|split].
  - intros Hs. unfold plot_distributions.
    pose proof (take_column_too_few source Hs) as H.
    unfold and_then in H |- *.
    destruct (take_column (if is_tensor source then cpu_detach_numpy source
                           else source) 0) as [e|x]; [congruence|].
    rewrite H. reflexivity.
  - intros Hs Hg. unfold plot_distributions.
    rewrite !(take_column_in_range source) by lia.
    pose proof (take_column_too_few generated Hg) as H.
    unfold and_then in H |- *.
    destruct (take_column (if is_tensor generated then cpu_detach_numpy generated
                           else generated) 0) as [e|x]; [congruence|].
    rewrite H. reflexivity.
  - intros Hs Hg Ht. unfold plot_distributions.
    rewrite !(take_column_in_range source), !(take_column_in_range generated) by lia.
    pose proof (take_column_too_few target Ht) as H.
    unfold and_then in H |- *.
    destruct (take_column (if is_tensor target then cpu_detach_numpy target
                           else target) 0) as [e|x]; [congruence|].
    rewrite H. reflexivity.
Qed.

(** [plot_distributions_too_few_columns] on batches of dimension 1 in each of
    the three places. *)
Lemma plot_distributions_too_few_columns_witness :
  plot_distributions (TorchTensor sample_a) (NumpyArray plane) (NumpyArray plane)
    "Comparison" None = inl (IndexError 1 1)
  /\ plot_distributions (NumpyArray plane) (TorchTensor sample_a) (NumpyArray plane)
       "Comparison" None = inl (IndexError 1 1)
  /\ plot_distributions (NumpyArray plane) (NumpyArray plane) (TorchTensor sample_a)
       "Comparison" None = inl (IndexError 1 1).
Proof.
  split; [|split].
  - apply (proj1 (plot_distributions_too_few_columns (TorchTensor sample_a)
                    (NumpyArray plane) (NumpyArray plane) "Comparison" None)).
    simpl. lia.
  - apply (proj1 (proj2 (plot_distributions_too_few_columns (NumpyArray plane)
                           (TorchTensor sample_a) (NumpyArray plane)
                           "Comparison" None))); simpl; lia.
  - apply (proj2 (proj2 (plot_distributions_too_few_columns (NumpyArray plane)
                           (NumpyArray plane) (TorchTensor sample_a)
                           "Comparison" None))); simpl; lia.
Defined.

(** Only the first two coordinates are plotted: arrays that agree on their
    columns 0 and 1 give the same figure, whatever their further columns. *)
Theorem plot_distributions_first_two_coordinates
    (source generated target source' generated' target' : array_like)
    (title : string) (filename : option string) :
  (2 <= ncols (entries source))%nat -> (2 <= ncols (entries source'))%nat ->
  (2 <= ncols (entries generated))%nat -> (2 <= ncols (entries generated'))%nat ->
  (2 <= ncols (entries target))%nat -> (2 <= ncols (entries target'))%nat ->
  (forall j, (j < 2)%nat ->
     column (entries source) j = column (entries source') j
     /\ column (entries generated) j = column (entries generated') j
     /\ column (entries target) j = column (entries target') j) ->
  plot_distributions source generated target title filename
  = plot_distributions source' generated' target' title filename.
Proof.
  intros Hs Hs' Hg Hg' Ht Ht' Hcols.
  rewrite !plot_distributions_ok by assumption.
  destruct (Hcols 0%nat ltac:(lia)) as (Es0 & Eg0 & Et0).
  destruct (Hcols 1%nat ltac:(lia)) as (Es1 & Eg1 & Et1).
  unfold plain_panel, overlay_panel.
  rewrite Es0, Es1, Eg0, Eg1, Et0, Et1. reflexivity.
Qed.

(** [plot_distributions_first_two_coordinates] on points in space and their
    projections on the plane. *)
Lemma plot_distributions_first_two_coordinates_witness :
  plot_distributions (NumpyArray space) (NumpyArray space) (NumpyArray space)
    "Comparison" None
  = plot_distributions (NumpyArray plane) (NumpyArray plane) (NumpyArray plane)
      "Comparison" None.
Proof.
  apply plot_distributions_first_two_coordinates; try (simpl; lia).
  intros [|[|j]] Hj; [repeat split; reflexivity .. | lia].
Defined.

(* ================================================================= *)
(** ** [plot_model_results] *)

Lemma collect_samples_map (items : list sample) (samples : list (list R)) :
  collect_samples items samples = samples ++ map point_of items.
Proof.
  revert samples. induction items as [|item items IH]; intros samples; simpl.
  - rewrite app_nil_r. reflexivity.
  - rewrite IH, <- app_assoc. destruct item; reflexivity.
Qed.

Lemma forallb_lengths (d : nat) (l : list (list R)) :
  forallb (fun y => (length y =? d)%nat) l = true
  <-> Forall (fun y => length y = d) l.
Proof.
  rewrite forallb_forall, List.Forall_forall. split; intros H y Hy.
  - apply Nat.eqb_eq, H, Hy.
  - apply Nat.eqb_eq, H, Hy.
Qed.

Lemma torch_stack_ok (tensors : list (list R)) (d : nat) :
  tensors <> [] -> Forall (fun y => length y = d) tensors ->
  torch_stack tensors = inr (mkTensor (length tensors) d tensors).
Proof.
  intros Hne Hall. destruct tensors as [|x l]; [contradiction|].
  unfold torch_stack.
  assert (Hx : length x = d) by (inversion Hall; assumption).
  rewrite Hx. apply forallb_lengths in Hall. rewrite Hall. reflexivity.
Qed.

(** A dataset of n >= 1 items whose points have one dimension d becomes the
    (n, d) tensor whose rows are the points, in the order of the dataset; the
    further components of a tuple are dropped. *)
Theorem dataset_to_tensor_samples (items : list sample) (d : nat) :
  items <> [] -> Forall (fun item => length (point_of item) = d) items ->
  exists t,
    dataset_to_tensor (Samples items) = inr t
    /\ has_shape t (length items) d
    /\ rows t = map point_of items.
Proof.
  intros Hne Hd. unfold dataset_to_tensor. rewrite collect_samples_map. simpl.
  assert (Hall : Forall (fun y => length y = d) (map point_of items)).
  { apply List.Forall_forall. intros y Hy. apply in_map_iff in Hy.
    destruct Hy as (it & <- & Hit). rewrite List.Forall_forall in Hd. apply Hd, Hit. }
  rewrite (torch_stack_ok _ d).
  - eexists. split; [reflexivity|]. split; [|reflexivity].
    unfold has_shape. simpl. rewrite length_map. repeat split. exact Hall.
  - intros E. apply map_eq_nil in E. contradiction.
  - exact Hall.
Qed.

Lemma labelled_points_dim : Forall (fun item => length (point_of item) = 2%nat) labelled_points.
Proof. repeat constructor. Qed.

(** [dataset_to_tensor_samples] on a tuple and a plain point. *)
Lemma dataset_to_tensor_samples_witness :
  exists t,
    dataset_to_tensor (Samples labelled_points) = inr t
    /\ has_shape t (length labelled_points) 2
    /\ rows t = map point_of labelled_points.
Proof.
  apply (dataset_to_tensor_samples labelled_points 2).
  - discriminate.
  - exact labelled_points_dim.
Defined.

(** A tensor is returned as it is, without any check; an empty dataset makes
    [torch.stack] raise; so does a dataset with a point whose dimension
    differs from that of the first point. *)
Theorem dataset_to_tensor_edges :
  (forall t, dataset_to_tensor (TensorData t) = inr t)
  /\ dataset_to_tensor (Samples []) = inl StackEmpty
  /\ (forall item items other,
        In other items -> length (point_of other) <> length (point_of item) ->
        dataset_to_tensor (Samples (item :: items)) = inl StackSizeMismatch).
Proof.
  split; [reflexivity|]. split; [reflexivity|].
  intros item items other Hin Hlen.
  unfold dataset_to_tensor. rewrite collect_samples_map. simpl.
  destruct (forallb (fun y => (length y =? length (point_of item))%nat)
              (map point_of (item :: items))) eqn:E.
  - exfalso. apply forallb_lengths in E. rewrite List.Forall_forall in E.
    apply Hlen, E. apply in_map. right. exact Hin.
  - simpl in E. rewrite E. reflexivity.
Qed.

(** [dataset_to_tensor_edges] on points of dimensions 2 and 1. *)
Lemma dataset_to_tensor_edges_witness :
  dataset_to_tensor (Samples ragged_points) = inl StackSizeMismatch.
Proof.
  apply (proj2 (proj2 dataset_to_tensor_edges) (Point [1; 2]) [Point [3]] (Point [3])).
  - left. reflexivity.
  - simpl. lia.
Defined.

(** The figure depends on the model through its output in evaluation mode
    alone: a model in training mode and one in evaluation mode that agree
    there give the same figure, whatever the first does in training mode. *)
Theorem plot_model_results_mode_independent (model model' : Module)
    (source_dataset target_dataset : dataset) (title : string)
    (filename : option string) :
  (forall t, call model false t = call model' false t) ->
  fst (plot_model_results model source_dataset target_dataset title filename)
  = fst (plot_model_results model' source_dataset target_dataset title filename).
Proof.
  intros H. unfold plot_model_results.
  destruct (dataset_to_tensor source_dataset) as [e|source]; [reflexivity|].
  destruct (dataset_to_tensor target_dataset) as [e|target]; [reflexivity|].
  simpl. rewrite H. destruct (call model' false source); reflexivity.
Qed.

(** [plot_model_results_mode_independent] on a model that fails in training
    mode and one that does not. *)
Lemma plot_model_results_mode_independent_witness :
  fst (plot_model_results doubling (Samples labelled_points) (TensorData plane)
         "Comparison" None)
  = fst (plot_model_results other_doubling (Samples labelled_points)
           (TensorData plane) "Comparison" None).
Proof.
  apply plot_model_results_mode_independent. intros t. reflexivity.
Defined.

(** The mode of the model after the call: when a dataset does not convert,
    the call raises the error of [torch.stack] before [model.eval()] (the
    source first) and the model keeps its mode; when both convert, the model
    is left in evaluation mode, whether the model or the plot then raises or
    not.  It is never put back in training mode. *)
Theorem plot_model_results_mode_after (model : Module)
    (source_dataset target_dataset : dataset) (title : string)
    (filename : option string) :
  let outcome := plot_model_results model source_dataset target_dataset title filename in
  match dataset_to_tensor source_dataset, dataset_to_tensor target_dataset with
  | inl e, _ => outcome = (inl e, model)
  | inr _, inl e => outcome = (inl e, model)
  | inr _, inr _ => snd outcome = eval model /\ training (snd outcome) = false
  end.
Proof.
  unfold plot_model_results.
  destruct (dataset_to_tensor source_dataset) as [e|source]; [reflexivity|].
  destruct (dataset_to_tensor target_dataset) as [e|target]; [reflexivity|].
  simpl. destruct (call model false source); simpl; auto.
Qed.

(** End to end: source and target datasets of points, a model whose output in
    evaluation mode has at least two columns: the four panels show the
    source points, the output of the model, the target points, and the
    output over the target. *)
Theorem plot_model_results_panels (model : Module)
    (source_dataset target_dataset : dataset) (title : string)
    (filename : option string) (source target generated : Tensor) :
  dataset_to_tensor source_dataset = inr source ->
  dataset_to_tensor target_dataset = inr target ->
  call model false source = inr generated ->
  (2 <= ncols source)%nat -> (2 <= ncols target)%nat -> (2 <= ncols generated)%nat ->
  exists fig saved,
    fst (plot_model_results model source_dataset target_dataset title filename)
    = inr (mkShown fig saved)
    /\ axes fig
       = [plain_panel source "Source Distribution";
          plain_panel generated "Generated Distribution";
          plain_panel target "Target Distribution";
          overlay_panel generated target].
Proof.
  intros Hs Ht Hm Hcs Hct Hcg. unfold plot_model_results.
  rewrite Hs, Ht. simpl. rewrite Hm. simpl.
  rewrite plot_distributions_ok by assumption.
  eexists _, _. split; reflexivity.
Qed.

(** [plot_model_results_panels] on two points and the model that doubles. *)
Lemma plot_model_results_panels_witness :
  exists fig saved,
    fst (plot_model_results doubling (Samples labelled_points) (TensorData plane)
           "Comparison" None)
    = inr (mkShown fig saved)
    /\ axes fig
       = [plain_panel (mkTensor 2 2 [[1; 2]; [3; 4]]) "Source Distribution";
          plain_panel (tabulate 2 2 (fun i j => 2 * get plane i j))
            "Generated Distribution";
          plain_panel plane "Target Distribution";
          overlay_panel (tabulate 2 2 (fun i j => 2 * get plane i j)) plane].
Proof.
  apply (plot_model_results_panels doubling (Samples labelled_points)
           (TensorData plane) "Comparison" None
           (mkTensor 2 2 [[1; 2]; [3; 4]]) plane
           (tabulate 2 2 (fun i j => 2 * get plane i j)));
    try reflexivity; simpl; lia.
Defined.
